(** * build_pr_changes.py: diff-to-spec extraction and safe-version expansion

    A shallow embedding of [get_specs_to_check], [get_safe_versions] and
    [expand_specs_to_check_package_versions] of [build_pr_changes.py].

    Python [str] values are modelled as [string] (sequences of 8-bit
    characters), Python lists as [list], [int] as [Z].  Exceptions are an
    explicit [outcome]; calls of external commands go through one oracle,
    [subprocess_run], and are recorded in a call log. *)

From Stdlib Require Import String Ascii List ZArith Bool Lia Permutation.
Import ListNotations.
Local Open Scope string_scope.
Local Open Scope list_scope.

(** String concatenation, Python's [+] on [str]. *)
Infix "^" := String.append (at level 30, right associativity) : string_scope.

(** ** Python strings *)

Module PyStr.

Definition dquote : ascii := "034"%char.
Definition newline : ascii := "010"%char.
Definition plus_sign : ascii := "+"%char.
Definition at_sign : ascii := "@"%char.

Definition q : string := String dquote EmptyString.
Definition nl : string := String newline EmptyString.

(** [str.isspace] on a single character, for code points below 256. *)
Definition isspace (c : ascii) : bool :=
  let n := nat_of_ascii c in
  (Nat.leb 9 n && Nat.leb n 13) || (Nat.leb 28 n && Nat.leb n 32)
  || Nat.eqb n 133 || Nat.eqb n 160.

(** [s.startswith(p)]: [String.prefix] with the arguments swapped. *)
Definition startswith (s p : string) : bool := String.prefix p s.

(** [s.split(sep)] for a one-character separator: never the empty list. *)
Fixpoint split (sep : ascii) (s : string) : list string :=
  match s with
  | EmptyString => [EmptyString]
  | String c s' =>
      if Ascii.eqb c sep then EmptyString :: split sep s'
      else match split sep s' with
           | h :: t => String c h :: t
           | [] => [String c EmptyString]
           end
  end.

(** [s.split(sep)[0]]. *)
Definition split0 (sep : ascii) (s : string) : string :=
  hd EmptyString (split sep s).

(** [s.split()]: split on runs of white space, no empty pieces.
    [cur] is the piece being read, in reverse. *)
Fixpoint rev_string (acc s : string) : string :=
  match s with
  | EmptyString => acc
  | String c s' => rev_string (String c acc) s'
  end.

Fixpoint split_ws_aux (cur : string) (s : string) : list string :=
  match s with
  | EmptyString =>
      match cur with
      | EmptyString => []
      | _ => [rev_string EmptyString cur]
      end
  | String c s' =>
      if isspace c then
        match cur with
        | EmptyString => split_ws_aux EmptyString s'
        | _ => rev_string EmptyString cur :: split_ws_aux EmptyString s'
        end
      else split_ws_aux (String c cur) s'
  end.

Definition split_ws (s : string) : list string := split_ws_aux EmptyString s.

(** [s.strip()]. *)
Fixpoint lstrip (s : string) : string :=
  match s with
  | EmptyString => EmptyString
  | String c s' => if isspace c then lstrip s' else s
  end.

Definition rstrip (s : string) : string :=
  rev_string EmptyString (lstrip (rev_string EmptyString s)).

Definition strip (s : string) : string := rstrip (lstrip s).

(** [x in l] for a list of strings. *)
Definition contains (x : string) (l : list string) : bool :=
  existsb (String.eqb x) l.

(** [not s] for a string: the empty string is false. *)
Definition falsy (s : string) : bool :=
  match s with EmptyString => true | _ => false end.

(** [l[:n]] for an [int] n, negative bounds counted from the end. *)
Definition slice_to {A} (l : list A) (n : Z) : list A :=
  if (0 <=? n)%Z then firstn (Z.to_nat n) l
  else firstn (Z.to_nat (Z.of_nat (length l) + n)) l.

End PyStr.

(** ** The fragment of Python's [re] the program uses

    Patterns are sequences of literal characters, the dot, one greedy capture
    group over the dot (starred: [GroupStar], or with a plus: [GroupPlus]),
    and the dollar.  Matching is by backtracking, longest
    repetition first, as in [re]; [search] tries every start position from
    the left. *)

Module Re.

Inductive item : Type :=
| Lit (c : ascii)
| Dot
| GroupStar
| GroupPlus
| Dollar.

Definition regex := list item.

Fixpoint lits (s : string) : regex :=
  match s with
  | EmptyString => []
  | String c s' => Lit c :: lits s'
  end.

Definition is_some {A} (o : option A) : bool :=
  match o with Some _ => true | None => false end.

(** The greedy starred dot followed by the continuation [k]; the result is
    the text the repetition consumed. *)
Fixpoint greedy (k : string -> option string) (s : string) : option string :=
  match s with
  | EmptyString => if is_some (k s) then Some EmptyString else None
  | String c s' =>
      if Ascii.eqb c PyStr.newline then
        if is_some (k s) then Some EmptyString else None
      else
        match greedy k s' with
        | Some g => Some (String c g)
        | None => if is_some (k s) then Some EmptyString else None
        end
  end.

Definition greedy1 (k : string -> option string) (s : string) : option string :=
  match s with
  | EmptyString => None
  | String c s' =>
      if Ascii.eqb c PyStr.newline then None
      else option_map (String c) (greedy k s')
  end.

(** A match anchored at the start of [s]; the result is [group(1)]
    (the empty string for a pattern without a group). *)
Fixpoint match_here (p : regex) (s : string) {struct p} : option string :=
  match p with
  | [] => Some EmptyString
  | Lit c :: p' =>
      match s with
      | String d s' => if Ascii.eqb c d then match_here p' s' else None
      | EmptyString => None
      end
  | Dot :: p' =>
      match s with
      | String d s' =>
          if Ascii.eqb d PyStr.newline then None else match_here p' s'
      | EmptyString => None
      end
  | GroupStar :: p' => greedy (match_here p') s
  | GroupPlus :: p' => greedy1 (match_here p') s
  | Dollar :: p' =>
      if String.eqb s EmptyString || String.eqb s PyStr.nl
      then match_here p' s else None
  end.

(** [re.search(p, s)], giving [group(1)] of the match. *)
Fixpoint search (p : regex) (s : string) : option string :=
  match match_here p s with
  | Some g => Some g
  | None =>
      match s with
      | EmptyString => None
      | String _ s' => search p s'
      end
  end.

End Re.

(** ** Exceptions and the call log *)

Inductive exn : Type :=
| IndexError
| ValueError
| SystemExit (code : Z).

Inductive outcome (A : Type) : Type :=
| Ok (a : A)
| Raise (e : exn).
Arguments Ok {A} a.
Arguments Raise {A} e.

Definition obind {A B} (m : outcome A) (f : A -> outcome B) : outcome B :=
  match m with
  | Ok a => f a
  | Raise e => Raise e
  end.

(** [l.remove(x)]: drops the first occurrence, [ValueError] when absent. *)
Fixpoint list_remove (x : string) (l : list string) : outcome (list string) :=
  match l with
  | [] => Raise ValueError
  | y :: l' =>
      if String.eqb x y then Ok l'
      else obind (list_remove x l') (fun r => Ok (y :: r))
  end.

(** [if x in l: l.remove(x)]. *)
Definition remove_if_present (x : string) (l : list string)
  : outcome (list string) :=
  if PyStr.contains x l then list_remove x l else Ok l.

Definition command := list string.

(** Computations that call external commands: the log of the commands issued
    so far is threaded through, next to the result or the exception. *)
Definition M (A : Type) : Type := list command -> outcome A * list command.

Definition ret {A} (a : A) : M A := fun log => (Ok a, log).
Definition raise {A} (e : exn) : M A := fun log => (Raise e, log).
Definition lift {A} (o : outcome A) : M A := fun log => (o, log).
Definition bind {A B} (m : M A) (f : A -> M B) : M B :=
  fun log =>
    match m log with
    | (Ok a, log') => f a log'
    | (Raise e, log') => (Raise e, log')
    end.

Declare Scope py_scope.
Delimit Scope py_scope with py.
Notation "x <- m ;; k" := (bind m (fun x => k))
  (at level 61, m at next level, right associativity) : py_scope.
Notation "' pat <- m ;; k" := (bind m (fun x => match x with pat => k end))
  (at level 61, pat pattern, m at next level, right associativity) : py_scope.

Local Open Scope py_scope.

(** ** The regular expressions of [get_specs_to_check] *)

Module Patterns.
Import Re.

(** Three escaped plus signs, a space, [b/], then the starred group. *)
Definition changed_path_re : regex := lits "+++ b/" ++ [GroupStar].

(** The path of a recipe under [var/spack/repos/builtin/packages/], the
    starred group, then [/package.py]: the dot before [py] is not escaped,
    it matches any character. *)
Definition recipe_re : regex :=
  lits "var/spack/repos/builtin/packages/" ++ [GroupStar]
  ++ lits "/package" ++ [Dot] ++ lits "py".

(** [version], an escaped opening parenthesis, the dollar. *)
Definition version_start_re : regex := lits "version(" ++ [Dollar].

(** [version], an escaped opening parenthesis, a double quote, the group
    with a plus, a double quote, a comma and a space. *)
Definition version_re : regex :=
  lits "version(" ++ [Lit PyStr.dquote; GroupPlus; Lit PyStr.dquote]
  ++ lits ", ".

(** A double quote, the group with a plus, a double quote. *)
Definition quoted_re : regex :=
  [Lit PyStr.dquote; GroupPlus; Lit PyStr.dquote].

(** As [version_re], for [variant]. *)
Definition variant_re : regex :=
  lits "variant(" ++ [Lit PyStr.dquote; GroupPlus; Lit PyStr.dquote]
  ++ lits ", ".

End Patterns.

(** ** [get_specs_to_check]: the local variables and the loop over the lines *)

Record locals : Type := mkLocals {
  changed_files : list string;
  changed_recipe : string;
  recipe_paths : list string;
  recipes : list string;
  specs : list string;
  variants : list string;
  versions : list string;
  next_line_is_version : bool
}.

Definition initial_locals : locals :=
  mkLocals [] "" [] [] [] [] [] false.

(** The branch taken at a line starting with [diff --git]. *)
Definition reset_context (st : locals) : locals :=
  mkLocals (changed_files st) "" (recipe_paths st) (recipes st) (specs st)
           [] [] false.

Definition set_specs (st : locals) (variants' : list string)
    (specs' : list string) (flag : bool) : locals :=
  mkLocals (changed_files st) (changed_recipe st) (recipe_paths st)
           (recipes st) specs' variants' (versions st) flag.

(** One iteration of the loop over the lines of the diff; every [continue]
    returns the locals reached so far. *)
Definition loop_body (st : locals) (line : string) : outcome locals :=
  if PyStr.startswith line "diff --git" then Ok (reset_context st)
  else
    match line with
    | EmptyString => Raise IndexError
    | String c0 _ =>
        if negb (Ascii.eqb c0 PyStr.plus_sign) then Ok st
        else
          match Re.search Patterns.changed_path_re line with
          | Some changed_file =>
              let files := changed_files st ++ [changed_file] in
              match Re.search Patterns.recipe_re changed_file with
              | Some recipe =>
                  Ok (mkLocals files recipe
                        (recipe_paths st ++ [changed_file])
                        (recipes st ++ [recipe])
                        (specs st ++ [recipe])
                        (variants st) (versions st)
                        (next_line_is_version st))
              | None =>
                  Ok (mkLocals files (changed_recipe st) (recipe_paths st)
                        (recipes st) (specs st) (variants st) (versions st)
                        (next_line_is_version st))
              end
          | None =>
              if PyStr.falsy (changed_recipe st) then Ok st
              else if Re.is_some (Re.search Patterns.version_start_re line)
              then Ok (set_specs st (variants st) (specs st) true)
              else
                let version := Re.search Patterns.version_re line in
                if next_line_is_version st || Re.is_some version then
                  let version :=
                    match version with
                    | Some v => Some v
                    | None => Re.search Patterns.quoted_re line
                    end in
                  match version with
                  | Some v =>
                      let spec := changed_recipe st ^ "@" ^ v in
                      obind (remove_if_present (changed_recipe st) (specs st))
                        (fun specs' =>
                           Ok (set_specs st (variants st) (specs' ++ [spec])
                                 false))
                  | None => Ok (set_specs st (variants st) (specs st) false)
                  end
                else
                  match Re.search Patterns.variant_re line with
                  | Some v =>
                      let variant_str := "+" ^ v in
                      obind (remove_if_present (changed_recipe st) (specs st))
                        (fun specs' =>
                           Ok (set_specs st (variants st ++ [variant_str])
                                 ((specs' ++ [changed_recipe st ^ variant_str])
                                  ++ map (fun version =>
                                            changed_recipe st ^ variant_str
                                            ^ "@" ^ version)
                                         (versions st))
                                 (next_line_is_version st)))
                  | None => Ok st
                  end
          end
    end.

Fixpoint for_lines (st : locals) (lines : list string) : outcome locals :=
  match lines with
  | [] => Ok st
  | line :: rest => obind (loop_body st line) (fun st' => for_lines st' rest)
  end.

(** The loop of [get_specs_to_check] run on the diff text, from the initial
    values of the locals. *)
Definition scan_diff (stdout : string) : outcome locals :=
  for_lines initial_locals (PyStr.split PyStr.newline stdout).

Definition specs_of_diff (stdout : string) : outcome (list string) :=
  obind (scan_diff stdout) (fun st => Ok (specs st)).

Section Commands.

(** The external world: what [subprocess.run(command, text=True,
    capture_output=True)] gives as return code, standard output and
    standard error.  The same command gives the same answer during one
    run of the program. *)
Variable subprocess_run : command -> Z * string * string.

Definition run (cmd : command) : M (Z * string * string) :=
  fun log =>
    let '(returncode, out, err) := subprocess_run cmd in
    (Ok (returncode, PyStr.strip out, PyStr.strip err), log ++ [cmd]).

Definition safe_versions_command (recipe : string) : command :=
  ["bin/spack"; "versions"; "--safe"; recipe].

(** The lines of the output of [spack versions --safe], header skipped,
    split at white space. *)
Definition listed_versions (stdout : string) : list string :=
  flat_map
    (fun line =>
       if PyStr.startswith line "==> Safe versions" then []
       else PyStr.split_ws line)
    (PyStr.split PyStr.newline stdout).

Definition skip_versions : list string := ["master"; "develop"; "main"].

Fixpoint remove_skipped (skip : list string) (safe_versions : list string)
  : outcome (list string) :=
  match skip with
  | [] => Ok safe_versions
  | skip_version :: rest =>
      obind (remove_if_present skip_version safe_versions)
            (remove_skipped rest)
  end.

Definition get_safe_versions (spec : string) : M (list string) :=
  let recipe := PyStr.split0 PyStr.plus_sign spec in
  '(err, stdout, _) <- run (safe_versions_command recipe) ;;
  let safe_versions :=
    if (err =? 0)%Z then listed_versions stdout else [] in
  lift (remove_skipped skip_versions safe_versions).

Definition get_specs_to_check : M (list string) :=
  '(err, stdout, stderr) <- run ["gh"; "pr"; "diff"] ;;
  if negb (err =? 0)%Z || negb (PyStr.falsy stderr)
  then raise (SystemExit err)
  else lift (specs_of_diff stdout).

(** [for spec in specs_to_check.copy()]: [todo] is what is left of the
    copy, [specs_to_check] the list being changed. *)
Fixpoint expand_loop (todo : list string) (max_versions : Z)
    (specs_to_check : list string) : M (list string) :=
  match todo with
  | [] => ret specs_to_check
  | spec :: rest =>
      let recipe := PyStr.split0 PyStr.at_sign spec in
      versions <- get_safe_versions recipe ;;
      match versions with
      | [] => expand_loop rest max_versions specs_to_check
      | _ :: _ =>
          removed <- lift (list_remove spec specs_to_check) ;;
          expand_loop rest max_versions
            (removed
             ++ map (fun version => recipe ^ "@" ^ version)
                    (PyStr.slice_to versions max_versions))
      end
  end.

Definition expand_specs_to_check_package_versions
    (specs_to_check : list string) (max_versions : Z) : M (list string) :=
  expand_loop specs_to_check max_versions specs_to_check.

End Commands.

(** ** Definitions used to state and prove the properties *)

(** [c in s] for a character. *)
Fixpoint mem_char (c : ascii) (s : string) : bool :=
  match s with
  | EmptyString => false
  | String d s' => Ascii.eqb d c || mem_char c s'
  end.

(** A recipe name that carries neither a variant nor a version marker. *)
Definition plain (r : string) : bool :=
  negb (mem_char PyStr.plus_sign r) && negb (mem_char PyStr.at_sign r).

(** The list without the first occurrence of [x], the list itself when [x]
    does not occur: what [if x in l: l.remove(x)] leaves. *)
Fixpoint remove_first (x : string) (l : list string) : list string :=
  match l with
  | [] => []
  | y :: l' => if String.eqb x y then l' else y :: remove_first x l'
  end.

(** What one line does to the locals, as a function of the line and of the
    part of the Diff Parse Context the control flow reads. *)
Inductive effect : Type :=
| EReset
| ENone
| EFail (e : exn)
| EPath (changed_file : string) (recipe : option string)
| EFlag (flag : bool)
| ESpecific (new_variants : list string) (appended : list string)
            (flag : bool).

Definition effect_of (recipe : string) (vers : list string) (flag : bool)
    (line : string) : effect :=
  if PyStr.startswith line "diff --git" then EReset
  else
    match line with
    | EmptyString => EFail IndexError
    | String c0 _ =>
        if negb (Ascii.eqb c0 PyStr.plus_sign) then ENone
        else
          match Re.search Patterns.changed_path_re line with
          | Some changed_file =>
              EPath changed_file (Re.search Patterns.recipe_re changed_file)
          | None =>
              if PyStr.falsy recipe then ENone
              else if Re.is_some (Re.search Patterns.version_start_re line)
              then EFlag true
              else
                let version := Re.search Patterns.version_re line in
                if flag || Re.is_some version then
                  match match version with
                        | Some v => Some v
                        | None => Re.search Patterns.quoted_re line
                        end with
                  | Some v => ESpecific [] [recipe ^ "@" ^ v] false
                  | None => EFlag false
                  end
                else
                  match Re.search Patterns.variant_re line with
                  | Some v =>
                      ESpecific ["+" ^ v]
                        ([recipe ^ "+" ^ v]
                         ++ map (fun version =>
                                   recipe ^ ("+" ^ v) ^ "@" ^ version) vers)
                        flag
                  | None => ENone
                  end
          end
    end.

Definition apply_effect (st : locals) (e : effect) : outcome locals :=
  match e with
  | EReset => Ok (reset_context st)
  | ENone => Ok st
  | EFail x => Raise x
  | EPath changed_file (Some recipe) =>
      Ok (mkLocals (changed_files st ++ [changed_file]) recipe
            (recipe_paths st ++ [changed_file]) (recipes st ++ [recipe])
            (specs st ++ [recipe]) (variants st) (versions st)
            (next_line_is_version st))
  | EPath changed_file None =>
      Ok (mkLocals (changed_files st ++ [changed_file]) (changed_recipe st)
            (recipe_paths st) (recipes st) (specs st) (variants st)
            (versions st) (next_line_is_version st))
  | EFlag flag => Ok (set_specs st (variants st) (specs st) flag)
  | ESpecific new_variants appended flag =>
      Ok (set_specs st (variants st ++ new_variants)
            (remove_first (changed_recipe st) (specs st) ++ appended) flag)
  end.

(** The relation between the locals of a diff parsed alone ([alone]) and
    the locals reached on the same lines after an earlier diff whose
    collection was [earlier] ([joined]): same context, and the collection of
    [joined] is that of [alone] plus what is kept of [earlier]. *)
Definition same_context (a b : locals) : Prop :=
  changed_recipe a = changed_recipe b /\ versions a = versions b
  /\ variants a = variants b
  /\ next_line_is_version a = next_line_is_version b.

Definition joined_collection (earlier : list string) (alone joined : locals)
  : Prop :=
  exists kept superseded,
    Permutation (specs joined) (kept ++ specs alone)
    /\ Permutation earlier (kept ++ superseded)
    /\ incl superseded (recipes alone).

(** What holds of the locals at every point of the loop: no version is
    ever recorded in [versions], and the current recipe, once set, is one of
    the recipes named so far. *)
Definition context_inv (st : locals) : Prop :=
  versions st = []
  /\ (changed_recipe st <> "" -> In (changed_recipe st) (recipes st)).

(** The bare entries of recipe [R] in the collection, counted against the
    path markers seen for [R]. *)
Definition bare_inv (R : string) (st : locals) : Prop :=
  Forall (fun r => plain r = true) (recipes st) ->
  count_occ string_dec (specs st) R <= count_occ string_dec (recipes st) R
  /\ ((exists v, In (R ^ "@" ^ v) (specs st) \/ In (R ^ "+" ^ v) (specs st))
      -> count_occ string_dec (specs st) R
         < count_occ string_dec (recipes st) R).

Section ExpansionSpec.

Variable subprocess_run : command -> Z * string * string.

(** The safe versions one answer of the collaborator stands for. *)
Definition parse_safe_versions (answer : Z * string * string)
  : list string :=
  let '(err, out, _) := answer in
  let listed :=
    if (err =? 0)%Z then listed_versions (PyStr.strip out) else [] in
  fold_left (fun l skip => remove_first skip l) skip_versions listed.

Definition recipe_of (spec : string) : string :=
  PyStr.split0 PyStr.plus_sign (PyStr.split0 PyStr.at_sign spec).

Definition query_of (spec : string) : command :=
  safe_versions_command (recipe_of spec).

Definition versions_for (spec : string) : list string :=
  parse_safe_versions (subprocess_run (query_of spec)).

Definition expandable (spec : string) : bool :=
  match versions_for spec with [] => false | _ :: _ => true end.

Definition expansion (max_versions : Z) (spec : string) : list string :=
  map (fun version => PyStr.split0 PyStr.at_sign spec ^ "@" ^ version)
      (PyStr.slice_to (versions_for spec) max_versions).

Definition expanded (specs_to_check : list string) (max_versions : Z)
  : list string :=
  filter (fun s => negb (expandable s)) specs_to_check
  ++ flat_map (expansion max_versions) (filter expandable specs_to_check).

(** The collaborator reports no safe versions for the recipe of [spec]:
    a non-success status, or nothing listed. *)
Definition soft_failure (spec : string) : Prop :=
  let '(err, out, _) := subprocess_run (query_of spec) in
  err <> 0%Z \/ listed_versions (PyStr.strip out) = [].

End ExpansionSpec.

(** ** Diffs and collaborators of the concrete scenarios *)

Module Scenario.
Import PyStr.

Definition lines (l : list string) : string := String.concat nl l.

Definition header (recipe : string) : list string :=
  let path := "var/spack/repos/builtin/packages/" ^ recipe ^ "/package.py" in
  [ "diff --git a/" ^ path ^ " b/" ^ path;
    "index 8a2c1f0..5d3e7b9 100644";
    "--- a/" ^ path;
    "+++ b/" ^ path;
    "@@ -20,6 +20,8 @@ class Pkg(Package):" ].

(** An added line [version("v", sha256="h"tail], after four spaces. *)
Definition version_line (v h tail : string) : string :=
  "+    version(" ^ q ^ v ^ q ^ ", sha256=" ^ q ^ h ^ q ^ tail.

Definition variant_line (v : string) : string :=
  "+    variant(" ^ q ^ v ^ q ^ ", default=False, description="
  ^ q ^ "Enable " ^ v ^ q ^ ")".

(** The collaborator behind [gh pr diff] answers [diff]; nothing else
    is asked of it. *)
Definition gh_answers (diff : string) : command -> Z * string * string :=
  fun _ => (0%Z, diff, "").

(** The collaborator behind [spack versions --safe] answers [out] with
    status [code] for every recipe. *)
Definition spack_answers (code : Z) (out : string)
  : command -> Z * string * string :=
  fun _ => (code, out, "").

Definition foo_2_1 : string :=
  lines (header "foo" ++ [version_line "2.1" "..." ")"]).

Definition foo_deprecated : string :=
  lines (header "foo" ++ [version_line "2.1" "abc" ", deprecated=True)"]).

Definition foo_versions_variants : string :=
  lines (header "foo"
         ++ [version_line "1.0" "aa" ")"; version_line "2.0" "bb" ")";
             variant_line "shared"; variant_line "mpi"]).

Definition foo_bare : string := lines (header "foo").

Definition foo_two_versions : string :=
  lines (header "foo"
         ++ [version_line "1.0" "aa" ")"; version_line "2.0" "bb" ")"]).

Definition foo_version_then_path : string :=
  lines (header "foo" ++ [version_line "1.0" "aa" ")"] ++ header "foo").

Definition safe_output : string :=
  "==> Safe versions (already checksummed):" ^ nl
  ^ "master  2.4.1  2.3  2.2  2.1".

(** The two lines of the concrete scenario, without the rest of the
    file block. *)
Definition foo_2_1_two_lines : string :=
  lines ["+++ b/var/spack/repos/builtin/packages/foo/package.py";
         version_line "2.1" "..." ")"].

(** [spack versions --safe] fails for [recipe] and lists [safe_output]
    for every other recipe. *)
Definition spack_fails_for (recipe : string)
  : command -> Z * string * string :=
  fun cmd =>
    if String.eqb (last cmd "") recipe
    then (1%Z, "", "==> Error: Package '" ^ recipe ^ "' not found.")
    else (0%Z, safe_output, "").

(** The locals at the end of the loop, for a diff on which it ends. *)
Definition locals_of (diff : string) : locals :=
  match scan_diff diff with
  | Ok st => st
  | Raise _ => initial_locals
  end.

Definition foo_2_1_locals : locals := Eval vm_compute in locals_of foo_2_1.

Definition foo_bare_locals : locals := Eval vm_compute in locals_of foo_bare.

Definition foo_two_versions_locals : locals :=
  Eval vm_compute in locals_of foo_two_versions.

End Scenario.

(** ** The rest of the program: more of Python's strings and lists *)

Module PyLib.

(** [s.strip(chars)]: drops from both ends the characters that occur in
    [chars]. *)
Fixpoint lstrip_chars (chars : string) (s : string) : string :=
  match s with
  | EmptyString => EmptyString
  | String c s' => if mem_char c chars then lstrip_chars chars s' else s
  end.

Definition strip_chars (chars : string) (s : string) : string :=
  PyStr.rev_string EmptyString
    (lstrip_chars chars
       (PyStr.rev_string EmptyString (lstrip_chars chars s))).

(** [str.lower] on one character, for code points below 256: the letters
    A to Z, and the accented capitals from 192 to 222 except the
    multiplication sign 215. *)
Definition lower_char (c : ascii) : ascii :=
  let n := nat_of_ascii c in
  if (Nat.leb 65 n && Nat.leb n 90)
     || (Nat.leb 192 n && Nat.leb n 222 && negb (Nat.eqb n 215))
  then ascii_of_nat (n + 32) else c.

Fixpoint lower (s : string) : string :=
  match s with
  | EmptyString => EmptyString
  | String c s' => String (lower_char c) (lower s')
  end.

(** [s.replace(old, new)] for a non-empty [old]: the occurrences are taken
    from the left and do not overlap.  [skip] counts the characters of an
    occurrence still to be passed over. *)
Fixpoint replace_from (old new : string) (skip : nat) (s : string) : string :=
  match s with
  | EmptyString => EmptyString
  | String c s' =>
      match skip with
      | S k => replace_from old new k s'
      | O =>
          if String.prefix old s
          then new ^ replace_from old new (String.length old - 1) s'
          else String c (replace_from old new O s')
      end
  end.

(** For the empty [old], [new] goes before every character and at the
    end. *)
Fixpoint intersperse (new : string) (s : string) : string :=
  match s with
  | EmptyString => new
  | String c s' => new ^ String c (intersperse new s')
  end.

Definition replace (old new s : string) : string :=
  match old with
  | EmptyString => intersperse new s
  | String _ _ => replace_from old new O s
  end.

(** [l[i]]: [IndexError] past the end. *)
Definition getitem {A} (l : list A) (i : nat) : outcome A :=
  match nth_error l i with
  | Some a => Ok a
  | None => Raise IndexError
  end.

(** [l.index(x)]: the position of the first occurrence, [ValueError] when
    absent. *)
Fixpoint index (x : string) (l : list string) : outcome nat :=
  match l with
  | [] => Raise ValueError
  | y :: l' =>
      if String.eqb y x then Ok O
      else obind (index x l') (fun i => Ok (S i))
  end.

(** Truth of a list: the empty list is false. *)
Definition nonempty {A} (l : list A) : bool :=
  match l with [] => false | _ :: _ => true end.

End PyLib.

(** ** [get_os_info] *)

(** The value of a line [KEY=value]: the second piece of the split at the
    equals sign, stripped of white space, then of double quotes. *)
Definition os_release_value (line : string) : outcome string :=
  obind (PyLib.getitem (PyStr.split "="%char line) 1)
        (fun v => Ok (PyLib.strip_chars PyStr.q (PyStr.strip v))).

(** One iteration of the loop over the lines of [/etc/os-release]; the
    three tests are made on every line, in this order. *)
Definition os_info_line (st : string * string * string) (line : string)
  : outcome (string * string * string) :=
  let '(about_build_host, os_name, os_version_id) := st in
  obind (if PyStr.startswith line "PRETTY_NAME="
         then obind (os_release_value line)
                (fun v => Ok (about_build_host ^ " on " ^ v))
         else Ok about_build_host)
    (fun about_build_host =>
       obind (if PyStr.startswith line "VERSION_ID="
              then os_release_value line else Ok os_version_id)
         (fun os_version_id =>
            obind (if PyStr.startswith line "NAME="
                   then os_release_value line else Ok os_name)
              (fun os_name => Ok (about_build_host, os_name, os_version_id)))).

Fixpoint os_info_lines (st : string * string * string) (lines : list string)
  : outcome (string * string * string) :=
  match lines with
  | [] => Ok st
  | line :: rest => obind (os_info_line st line) (fun st' => os_info_lines st' rest)
  end.

(** [get_os_info], as a function of the text read from [/etc/os-release]:
    the result is [(about_build_host, os_name, os_version_id)]. *)
Definition get_os_info (os_release : string)
  : outcome (string * string * string) :=
  os_info_lines ("", "", "") (PyStr.split PyStr.newline os_release).

(** ** The commands run on the collection and [main] *)

(** The command-line flags, as [argparse] stores them: [safe_versions] is
    [None] when the option is absent. *)
Record args : Type := mkArgs {
  label_success : bool;
  safe_versions : option Z;
  download : bool;
  uninstall : bool
}.

Section Program.

(** As before, what the captured commands answer. *)
Variable subprocess_run : command -> Z * string * string.

(** The exit status of a child that [pexpect] runs on the terminal until it
    ends: [None] when a signal ended it. *)
Variable pexpect_spawn : command -> option Z.

(** What the user types at the prompt of [input]. *)
Variable input_answer : string.

(** The text of [/etc/os-release]. *)
Variable os_release : string.

Definition find_command (recipe : string) : command :=
  ["bin/spack"; "find"; "--no-groups"; "-v"; "-I"; recipe].

Fixpoint find_loop (recipes installed findings : list string)
  : M (list string * list string) :=
  match recipes with
  | [] => ret (installed, findings)
  | recipe :: rest =>
      '(err, stdout, _) <- run subprocess_run (find_command recipe) ;;
      if (err =? 0)%Z then
        find_loop rest (installed ++ [recipe])
          (findings ++ [PyLib.replace " build_system=python_pip" "" stdout])
      else find_loop rest installed findings
  end.

Definition find_already_installed (recipes : list string)
  : M (list string * list string) :=
  find_loop recipes [] [].

Definition uninstall_command (recipe : string) : command :=
  ["bin/spack"; "uninstall"; "-ya"; "--dependents"; recipe].

Fixpoint spack_uninstall_packages (installed : list string) : M unit :=
  match installed with
  | [] => ret tt
  | recipe :: rest =>
      '(r, out, err) <- run subprocess_run (uninstall_command recipe) ;;
      if negb (r =? 0)%Z then raise (SystemExit r)
      else spack_uninstall_packages rest
  end.

Definition spawn (cmd : string) (arguments : list string) : M (option Z) :=
  fun log =>
    (Ok (pexpect_spawn (cmd :: arguments)), log ++ [cmd :: arguments]).

Definition fetch_flags : list string :=
  ["--fresh"; "--fresh-roots"; "--deprecated"].

Definition fetch_arguments (spec : string) : list string :=
  ["fetch"] ++ fetch_flags ++ [spec].

(** [for spec in specs]: [todo] is what is left of [specs]; the position
    of the spec is looked up for the progress message. *)
Fixpoint downloads_loop (specs todo : list string) : M Z :=
  match todo with
  | [] => ret 0%Z
  | spec :: rest =>
      _ <- lift (PyLib.index spec specs) ;;
      r <- spawn "bin/spack" (fetch_arguments spec) ;;
      match r with
      | Some z => if (z =? 0)%Z then downloads_loop specs rest else ret z
      | None => downloads_loop specs rest
      end
  end.

Definition check_all_downloads (specs : list string) : M Z :=
  downloads_loop specs specs.

Definition install_arguments (spec : string) : list string :=
  ["install"; "-v"; "--fail-fast"; "--deprecated"; spec].

Definition status_is_zero (r : option Z) : bool :=
  match r with
  | Some z => (z =? 0)%Z
  | None => false
  end.

Fixpoint install_loop (specs todo passed failed : list string)
  : M (list string * list string) :=
  match todo with
  | [] => ret (passed, failed)
  | spec :: rest =>
      if PyStr.startswith spec "composable-kernel"
      then install_loop specs rest passed failed
      else
        _ <- lift (PyLib.index spec specs) ;;
        r <- spawn "bin/spack" (install_arguments spec) ;;
        if status_is_zero r
        then install_loop specs rest (passed ++ [spec]) failed
        else install_loop specs rest passed (failed ++ [spec])
  end.

Definition spack_install (specs : list string)
  : M (list string * list string) :=
  install_loop specs specs [] [].

(** The loop that removes every already installed spec from
    [specs_to_check]. *)
Fixpoint remove_each (installed specs_to_check : list string)
  : outcome (list string) :=
  match installed with
  | [] => Ok specs_to_check
  | pkg :: rest => obind (list_remove pkg specs_to_check) (remove_each rest)
  end.

Definition truthy_int (n : option Z) : bool :=
  match n with
  | Some z => negb (z =? 0)%Z
  | None => false
  end.

Definition label_command (os_name os_version_id : string) : command :=
  ["gh"; "pr"; "edit"; "--add-label";
   "Built on " ^ os_name ^ " " ^ os_version_id].

Definition main (a : args) : M Z :=
  specs_to_check <- get_specs_to_check subprocess_run ;;
  specs_to_check <-
    (if truthy_int (safe_versions a)
     then expand_specs_to_check_package_versions subprocess_run
            specs_to_check
            (match safe_versions a with Some n => n | None => 0%Z end)
     else ret specs_to_check) ;;
  if download a then check_all_downloads specs_to_check
  else
    '(installed, findings) <- find_already_installed specs_to_check ;;
    installed <-
      (if PyLib.nonempty installed && uninstall a
          && String.eqb (PyLib.lower input_answer) "y"
       then _ <- spack_uninstall_packages installed ;; ret []
       else ret installed) ;;
    specs_to_check <- lift (remove_each installed specs_to_check) ;;
    '(passed, failed) <- spack_install specs_to_check ;;
    '(about_build_host, os_name, os_version_id) <-
      lift (get_os_info os_release) ;;
    _ <- run subprocess_run
           (["bin/spack"; "find"; "-v"] ++ installed ++ passed) ;;
    if PyLib.nonempty failed || negb (PyLib.nonempty (passed ++ installed))
    then ret 1%Z
    else
      if label_success a
      then _ <- run subprocess_run (label_command os_name os_version_id) ;;
           ret 0%Z
      else ret 0%Z.

End Program.

(** ** Definitions used to state the further properties *)

(** A line the loop does not pass over: a file-boundary marker, an addition
    line, or the empty line (on which it fails). *)
Definition relevant_line (line : string) : bool :=
  PyStr.startswith line "diff --git"
  || match line with
     | EmptyString => true
     | String c0 _ => Ascii.eqb c0 PyStr.plus_sign
     end.

(** The spec [s] is the bare entry of recipe [r], or [r] with a version, or
    [r] with a variant. *)
Definition built_from (r s : string) : Prop :=
  s = r \/ exists v, s = r ^ "@" ^ v \/ s = r ^ "+" ^ v.

(** A token: not empty, and free of white space. *)
Definition is_token (t : string) : Prop :=
  t <> "" /\ forall c, mem_char c t = true -> PyStr.isspace c = false.

Section ProgramSpec.

Variable subprocess_run : command -> Z * string * string.
Variable pexpect_spawn : command -> option Z.

(** [spack find] reports the spec as installed: status 0. *)
Definition is_installed (recipe : string) : bool :=
  let '(err, _, _) := subprocess_run (find_command recipe) in (err =? 0)%Z.

(** The finding recorded for an installed spec. *)
Definition finding_of (recipe : string) : string :=
  let '(_, out, _) := subprocess_run (find_command recipe) in
  PyLib.replace " build_system=python_pip" "" (PyStr.strip out).

(** The status of [spack uninstall] for the spec. *)
Definition uninstall_status (recipe : string) : Z :=
  let '(r, _, _) := subprocess_run (uninstall_command recipe) in r.

Definition fetch_command (spec : string) : command :=
  "bin/spack" :: fetch_arguments spec.

(** The download check goes on after this spec: its fetch ended with
    status 0, or was ended by a signal. *)
Definition fetch_goes_on (spec : string) : bool :=
  match pexpect_spawn (fetch_command spec) with
  | Some z => (z =? 0)%Z
  | None => true
  end.

Definition install_command (spec : string) : command :=
  "bin/spack" :: install_arguments spec.

Definition install_passes (spec : string) : bool :=
  status_is_zero (pexpect_spawn (install_command spec)).

(** The specs [spack_install] does not pass over. *)
Definition to_install (specs : list string) : list string :=
  filter (fun spec => negb (PyStr.startswith spec "composable-kernel")) specs.

End ProgramSpec.

(** The value a line [KEY=value] of [/etc/os-release] stands for. *)
Definition os_value_of (line : string) : string :=
  PyLib.strip_chars PyStr.q
    (PyStr.strip (nth 1 (PyStr.split "="%char line) "")).

Section MainSpec.

Variable subprocess_run : command -> Z * string * string.

(** The collection [main] goes on with, after the optional expansion of
    the collection [specs] the diff gave. *)
Definition checked_specs (a : args) (specs : list string) : list string :=
  match safe_versions a with
  | Some n =>
      if (n =? 0)%Z then specs else expanded subprocess_run specs n
  | None => specs
  end.

(** The queries for safe versions that [main] issues. *)
Definition expansion_queries (a : args) (specs : list string)
  : list command :=
  match safe_versions a with
  | Some n => if (n =? 0)%Z then [] else map query_of specs
  | None => []
  end.

(** The value [main] returns after the installs. *)
Definition exit_code (passed failed installed : list string) : Z :=
  if PyLib.nonempty failed || negb (PyLib.nonempty (passed ++ installed))
  then 1%Z else 0%Z.

(** The commands [main] issues after the installs: the final [spack find]
    and, on success with the label flag, the labelling of the PR. *)
Definition report_commands (a : args) (passed failed installed : list string)
    (os_name os_version_id : string) : list command :=
  (["bin/spack"; "find"; "-v"] ++ installed ++ passed)
  :: (if (exit_code passed failed installed =? 0)%Z && label_success a
      then [label_command os_name os_version_id] else []).

End MainSpec.

(** The addition line that names the recipe file of [recipe]. *)
Definition recipe_path_line (recipe : string) : string :=
  "+++ b/" ^ "var/spack/repos/builtin/packages/" ^ recipe ^ "/package.py".

(** An addition line with a version declaration: white space or other
    text [indent], the version [v] in double quotes after [version(], a
    comma and a space, and the rest of the line. *)
Definition version_decl_line (d : string * string * string) : string :=
  let '(indent, v, tail) := d in
  "+" ^ indent ^ "version(" ^ PyStr.q ^ v ^ PyStr.q ^ ", " ^ tail.

Definition declared_version (d : string * string * string) : string :=
  let '(_, v, _) := d in v.

(** Such a line is taken the way it is meant when: the indentation holds
    no plus sign and no letter v; the version is not empty and holds no
    plus sign; the rest holds no plus sign, no opening parenthesis and no
    further quote followed by a comma and a space; nothing holds a line
    break. *)
Definition plain_version_decl (d : string * string * string) : bool :=
  let '(indent, v, tail) := d in
  negb (mem_char PyStr.plus_sign indent) && negb (mem_char "v"%char indent)
  && negb (mem_char PyStr.newline indent)
  && negb (PyStr.falsy v) && negb (mem_char PyStr.plus_sign v)
  && negb (mem_char PyStr.newline v)
  && negb (mem_char PyStr.plus_sign tail) && negb (mem_char "("%char tail)
  && negb (mem_char PyStr.newline tail)
  && negb (Re.is_some (Re.search (Re.lits (PyStr.q ^ ", ")) tail)).

(** The last character of a string. *)
Fixpoint last_char (s : string) : option ascii :=
  match s with
  | EmptyString => None
  | String c EmptyString => Some c
  | String _ s' => last_char s'
  end.

(** ** A world for the concrete runs of the program *)

Module World.
Import PyStr.

(** A diff with a file block for [foo] that declares version 2.1 and one
    for [bar] that declares version 1.0. *)
Definition diff : string :=
  Scenario.lines
    (Scenario.header "foo" ++ [Scenario.version_line "2.1" "aa" ")"]
     ++ Scenario.header "bar" ++ [Scenario.version_line "1.0" "bb" ")"]).

(** The captured commands: [gh pr diff] ends with [gh_status] and writes
    [gh_stderr] to standard error; [spack find] finds [bar@1.0] alone;
    [spack uninstall] ends with [uninstall_code]; [spack versions --safe]
    lists [Scenario.safe_output]. *)
Definition commands (gh_status : Z) (gh_stderr : string) (uninstall_code : Z)
  : command -> Z * string * string :=
  fun cmd =>
    if String.eqb (hd "" cmd) "gh" then
      if String.eqb (nth 2 cmd "") "diff" then (gh_status, diff, gh_stderr)
      else (0%Z, "", "")
    else if String.eqb (nth 1 cmd "") "versions"
    then (0%Z, Scenario.safe_output, "")
    else if String.eqb (nth 1 cmd "") "find"
            && String.eqb (nth 2 cmd "") "--no-groups"
    then if String.eqb (last cmd "") "bar@1.0"
         then (0%Z, "bar@1.0 build_system=python_pip", "")
         else (1%Z, "", "==> No package matches the query")
    else if String.eqb (nth 1 cmd "") "uninstall"
    then (uninstall_code, "", "")
    else (0%Z, "", "").

(** The children run on the terminal: the fetch of [bad] ends with
    status 3 and its install with status 1, every other one with 0. *)
Definition children (bad : string) : command -> option Z :=
  fun cmd =>
    if String.eqb (last cmd "") bad
    then (if String.eqb (nth 1 cmd "") "fetch" then Some 3%Z else Some 1%Z)
    else Some 0%Z.

Definition os_release : string :=
  Scenario.lines
    [ "PRETTY_NAME=" ^ q ^ "Ubuntu 22.04.4 LTS" ^ q;
      "NAME=" ^ q ^ "Ubuntu" ^ q;
      "VERSION_ID=" ^ q ^ "22.04" ^ q;
      "ID=ubuntu" ].

Definition install_flags : args := mkArgs true None false false.
Definition uninstall_flags : args := mkArgs false None false true.
Definition download_flags : args := mkArgs false (Some 2%Z) true false.

Definition two_version_decls : list (string * string * string) :=
  [ ("    ", "1.0", "sha256=" ^ q ^ "aa" ^ q ^ ")");
    ("    ", "2.0", "sha256=" ^ q ^ "bb" ^ q ^ ")") ].

(** A file block for [bar] that declares one version and one variant. *)
Definition bar_block : string :=
  Scenario.lines
    (Scenario.header "bar"
     ++ [Scenario.version_line "3.0" "cc" ")"; Scenario.variant_line "mpi"]).

Definition bar_block_locals : locals :=
  Eval vm_compute in Scenario.locals_of bar_block.

End World.

(** ** Lists: membership and [remove] *)

Lemma contains_In (x : string) (l : list string) :
  PyStr.contains x l = true <-> In x l.
Proof.
  unfold PyStr.contains. rewrite existsb_exists. split.
  - intros [y [Hy He]]. apply String.eqb_eq in He. now subst.
  - intros H. exists x. split; [assumption | apply String.eqb_refl].
Qed.

Lemma contains_notin (x : string) (l : list string) :
  PyStr.contains x l = false <-> ~ In x l.
Proof.
  rewrite <- contains_In. destruct (PyStr.contains x l); split; congruence.
Qed.

Lemma remove_first_notin (x : string) (l : list string) :
  ~ In x l -> remove_first x l = l.
Proof.
  induction l as [|y l IH]; simpl; intros H; [reflexivity|].
  destruct (String.eqb_spec x y) as [->|Hne].
  - exfalso. apply H. now left.
  - f_equal. apply IH. intros Hin. apply H. now right.
Qed.

Lemma list_remove_In (x : string) (l : list string) :
  In x l -> list_remove x l = Ok (remove_first x l).
Proof.
  induction l as [|y l IH]; simpl; intros H; [contradiction|].
  destruct (String.eqb_spec x y) as [->|Hne]; [reflexivity|].
  destruct H as [H|H]; [congruence|].
  now rewrite (IH H).
Qed.

Lemma remove_if_present_ok (x : string) (l : list string) :
  remove_if_present x l = Ok (remove_first x l).
Proof.
  unfold remove_if_present.
  destruct (PyStr.contains x l) eqn:E.
  - apply list_remove_In. now apply contains_In.
  - apply contains_notin in E. now rewrite remove_first_notin.
Qed.

Lemma remove_first_perm (x : string) (l : list string) :
  In x l -> Permutation l (x :: remove_first x l).
Proof.
  induction l as [|y l IH]; simpl; intros H; [contradiction|].
  destruct (String.eqb_spec x y) as [->|Hne]; [reflexivity|].
  destruct H as [H|H]; [congruence|].
  rewrite (IH H) at 1. apply perm_swap.
Qed.

Lemma remove_first_middle (x : string) (pre post : list string) :
  ~ In x pre -> remove_first x (pre ++ x :: post) = pre ++ post.
Proof.
  induction pre as [|y pre IH]; simpl; intros H.
  - now rewrite String.eqb_refl.
  - destruct (String.eqb_spec x y) as [->|Hne].
    + exfalso. apply H. now left.
    + f_equal. apply IH. intros Hin. apply H. now right.
Qed.

Lemma count_occ_remove_first_other (x y : string) (l : list string) :
  x <> y ->
  count_occ string_dec (remove_first x l) y = count_occ string_dec l y.
Proof.
  intros Hne. induction l as [|z l IH]; simpl; [reflexivity|].
  destruct (String.eqb_spec x z) as [->|Hxz].
  - destruct (string_dec z y); [congruence | reflexivity].
  - simpl. now rewrite IH.
Qed.

Lemma count_occ_remove_first_same (x : string) (l : list string) :
  count_occ string_dec (remove_first x l) x
  = pred (count_occ string_dec l x).
Proof.
  induction l as [|z l IH]; simpl; [reflexivity|].
  destruct (String.eqb_spec x z) as [->|Hxz].
  - destruct (string_dec z z); [reflexivity | congruence].
  - simpl. destruct (string_dec z x); [congruence | assumption].
Qed.

Lemma In_remove_first (x y : string) (l : list string) :
  In y (remove_first x l) -> In y l.
Proof.
  induction l as [|z l IH]; simpl; [tauto|].
  destruct (String.eqb_spec x z) as [->|Hxz]; simpl; tauto.
Qed.

(** ** Strings: [split] and its first piece *)

Lemma append_assoc (a b c : string) : (a ^ b) ^ c = a ^ b ^ c.
Proof. induction a as [|x a IH]; simpl; [reflexivity | now rewrite IH]. Qed.

Lemma split_not_nil (sep : ascii) (s : string) : PyStr.split sep s <> [].
Proof.
  destruct s as [|c s]; simpl; [discriminate|].
  destruct (Ascii.eqb c sep); [discriminate|].
  destruct (PyStr.split sep s); discriminate.
Qed.

Lemma split_cons_other (sep c : ascii) (s : string) :
  Ascii.eqb c sep = false ->
  PyStr.split sep (String c s)
  = String c (PyStr.split0 sep s) :: tl (PyStr.split sep s).
Proof.
  intros H. unfold PyStr.split0. simpl. rewrite H.
  destruct (PyStr.split sep s) eqn:E; [|reflexivity].
  now apply split_not_nil in E.
Qed.

(** Splitting a text joined by the separator gives the pieces of both. *)
Lemma split_join (sep : ascii) (a b : string) :
  PyStr.split sep (a ^ String sep b) = PyStr.split sep a ++ PyStr.split sep b.
Proof.
  induction a as [|c a IH]; simpl.
  - now rewrite Ascii.eqb_refl.
  - destruct (Ascii.eqb c sep); [now rewrite IH|].
    rewrite IH. destruct (PyStr.split sep a) eqn:E; [|reflexivity].
    now apply split_not_nil in E.
Qed.

Lemma split0_cons_other (sep c : ascii) (s : string) :
  Ascii.eqb c sep = false ->
  PyStr.split0 sep (String c s) = String c (PyStr.split0 sep s).
Proof.
  intros H. unfold PyStr.split0 at 1. now rewrite split_cons_other.
Qed.

Lemma split0_cons_sep (sep : ascii) (s : string) :
  PyStr.split0 sep (String sep s) = EmptyString.
Proof. unfold PyStr.split0. simpl. now rewrite Ascii.eqb_refl. Qed.

Lemma split0_no_sep (sep : ascii) (s : string) :
  mem_char sep (PyStr.split0 sep s) = false.
Proof.
  induction s as [|c s IH]; [reflexivity|].
  destruct (Ascii.eqb c sep) eqn:E.
  - apply Ascii.eqb_eq in E. subst c. now rewrite split0_cons_sep.
  - rewrite split0_cons_other by assumption. simpl. now rewrite E.
Qed.

Lemma split0_prefix (sep : ascii) (a b : string) :
  mem_char sep a = false -> PyStr.split0 sep (a ^ String sep b) = a.
Proof.
  induction a as [|c a IH]; simpl; intros H.
  - apply split0_cons_sep.
  - apply orb_false_iff in H. destruct H as [Hc Ha].
    rewrite split0_cons_other by assumption. now rewrite IH.
Qed.

Lemma split0_whole (sep : ascii) (a : string) :
  mem_char sep a = false -> PyStr.split0 sep a = a.
Proof.
  induction a as [|c a IH]; simpl; intros H; [reflexivity|].
  apply orb_false_iff in H. destruct H as [Hc Ha].
  rewrite split0_cons_other by assumption. now rewrite IH.
Qed.

Lemma mem_char_append (c : ascii) (a b : string) :
  mem_char c (a ^ b) = mem_char c a || mem_char c b.
Proof.
  induction a as [|d a IH]; simpl; [reflexivity|].
  now rewrite IH, orb_assoc.
Qed.

Lemma plain_chars (r : string) :
  plain r = true ->
  mem_char PyStr.plus_sign r = false /\ mem_char PyStr.at_sign r = false.
Proof.
  unfold plain. intros H. apply andb_true_iff in H. destruct H as [H1 H2].
  split; [now destruct (mem_char PyStr.plus_sign r)
         | now destruct (mem_char PyStr.at_sign r)].
Qed.

(** Two texts that agree up to the first marker agree on what is before
    it: [a] and [b] are free of the markers [c] and [d]. *)
Lemma marker_prefix_eq (c d : ascii) (a b x y : string) :
  mem_char c a = false -> mem_char d a = false ->
  mem_char c b = false -> mem_char d b = false ->
  a ^ String c x = b ^ String d y -> a = b /\ c = d.
Proof.
  revert b. induction a as [|p a IH]; intros [|p' b]; simpl;
    intros Hca Hda Hcb Hdb E.
  - injection E as -> _. now split.
  - injection E as -> _. rewrite Ascii.eqb_refl in Hcb. discriminate.
  - injection E as -> _. rewrite Ascii.eqb_refl in Hda. discriminate.
  - injection E as -> E.
    apply orb_false_iff in Hca, Hda, Hcb, Hdb.
    destruct (IH b) as [-> ->]; tauto.
Qed.

(** ** The Version Expander *)

Section ExpansionProofs.

Variable subprocess_run : command -> Z * string * string.

Lemma remove_skipped_ok (skip l : list string) :
  remove_skipped skip l
  = Ok (fold_left (fun l s => remove_first s l) skip l).
Proof.
  revert l. induction skip as [|s skip IH]; intros l; simpl; [reflexivity|].
  rewrite remove_if_present_ok. simpl. apply IH.
Qed.

(** [get_safe_versions] never raises; it issues one query, for the text
    before the first plus sign. *)
Lemma get_safe_versions_spec (spec : string) (log : list command) :
  get_safe_versions subprocess_run spec log
  = (Ok (parse_safe_versions
           (subprocess_run
              (safe_versions_command (PyStr.split0 PyStr.plus_sign spec)))),
     log ++ [safe_versions_command (PyStr.split0 PyStr.plus_sign spec)]).
Proof.
  unfold get_safe_versions, bind, run, lift, parse_safe_versions.
  destruct (subprocess_run _) as [[err out] errout].
  now rewrite remove_skipped_ok.
Qed.

(** The loop, with the list being changed split into what was kept of the
    specs already visited, the specs still to visit, and what was
    appended. *)
Lemma expand_loop_spec (max_versions : Z) (todo : list string) :
  forall (kept appended : list string) (log : list command),
    (forall s, In s kept -> expandable subprocess_run s = false) ->
    expand_loop subprocess_run todo max_versions
      (kept ++ todo ++ appended) log
    = (Ok (kept
           ++ filter (fun s => negb (expandable subprocess_run s)) todo
           ++ appended
           ++ flat_map (expansion subprocess_run max_versions)
                (filter (expandable subprocess_run) todo)),
       log ++ map query_of todo).
Proof.
  induction todo as [|spec rest IH]; intros kept appended log Hkept.
  - simpl. unfold ret. now rewrite !app_nil_r.
  - cbn [expand_loop]. unfold bind at 1. rewrite get_safe_versions_spec.
    fold (recipe_of spec). fold (query_of spec).
    fold (versions_for subprocess_run spec).
    cbn [filter flat_map map].
    destruct (versions_for subprocess_run spec) as [|v vs] eqn:Ev.
    + assert (Hs : expandable subprocess_run spec = false)
        by (unfold expandable; now rewrite Ev).
      rewrite Hs. cbn [negb].
      replace (kept ++ (spec :: rest) ++ appended)
        with ((kept ++ [spec]) ++ rest ++ appended)
        by (now rewrite <- app_assoc).
      rewrite IH.
      * rewrite <- !app_assoc. reflexivity.
      * intros s Hin. apply in_app_or in Hin.
        destruct Hin as [Hin|[<-|[]]]; [now apply Hkept | assumption].
    + assert (Hs : expandable subprocess_run spec = true)
        by (unfold expandable; now rewrite Ev).
      rewrite Hs. cbn [negb].
      unfold bind, lift.
      rewrite list_remove_In by (apply in_or_app; right; now left).
      simpl app at 1.
      rewrite remove_first_middle.
      * rewrite <- !app_assoc. rewrite IH by assumption.
        cbn [flat_map]. unfold expansion at 2. rewrite Ev.
        rewrite <- !app_assoc. reflexivity.
      * intros Hin. apply Hkept in Hin. congruence.
Qed.

(** The expander never raises: it returns the specs without safe versions
    in their order, followed by the expansions of the others, and asks
    one query per spec. *)
Lemma expand_spec (specs_to_check : list string) (max_versions : Z)
    (log : list command) :
  expand_specs_to_check_package_versions subprocess_run specs_to_check
    max_versions log
  = (Ok (expanded subprocess_run specs_to_check max_versions),
     log ++ map query_of specs_to_check).
Proof.
  unfold expand_specs_to_check_package_versions, expanded.
  pose proof (expand_loop_spec max_versions specs_to_check [] [] log) as H.
  simpl in H. rewrite app_nil_r in H. apply H. intros s [].
Qed.

Lemma fold_remove_nil (skip : list string) :
  fold_left (fun l s => remove_first s l) skip [] = [].
Proof. induction skip; simpl; auto. Qed.

Lemma soft_failure_no_versions (spec : string) :
  soft_failure subprocess_run spec -> versions_for subprocess_run spec = [].
Proof.
  unfold soft_failure, versions_for, parse_safe_versions.
  destruct (subprocess_run (query_of spec)) as [[err out] errout].
  intros [Herr|Hout].
  - apply Z.eqb_neq in Herr. rewrite Herr. apply fold_remove_nil.
  - rewrite Hout. destruct (err =? 0)%Z; apply fold_remove_nil.
Qed.

Lemma split0_at_expansion (prefix version : string) :
  PyStr.split0 PyStr.at_sign
    (PyStr.split0 PyStr.at_sign prefix ^ "@" ^ version)
  = PyStr.split0 PyStr.at_sign prefix.
Proof. apply split0_prefix, split0_no_sep. Qed.

(** A spec an expansion appends asks the same query as the spec it was
    expanded from. *)
Lemma expansion_same_query (max_versions : Z) (spec s : string) :
  In s (expansion subprocess_run max_versions spec) ->
  query_of s = query_of spec.
Proof.
  unfold expansion. intros H. apply in_map_iff in H.
  destruct H as [v [<- _]]. unfold query_of, recipe_of.
  now rewrite split0_at_expansion.
Qed.

Lemma count_occ_filter (f : string -> bool) (l : list string) (x : string) :
  count_occ string_dec (filter f l) x
  = if f x then count_occ string_dec l x else 0.
Proof.
  induction l as [|y l IH]; simpl; [now destruct (f x)|].
  destruct (f y) eqn:Ey; simpl; destruct (string_dec y x) as [->|Hne];
    rewrite IH; rewrite ?Ey; reflexivity.
Qed.

Lemma not_expandable_not_appended (max_versions : Z)
    (specs_to_check : list string) (s : string) :
  expandable subprocess_run s = false ->
  ~ In s (flat_map (expansion subprocess_run max_versions)
            (filter (expandable subprocess_run) specs_to_check)).
Proof.
  intros Hs Hin. apply in_flat_map in Hin. destruct Hin as [t [Ht Hst]].
  apply filter_In in Ht. destruct Ht as [_ Ht].
  apply expansion_same_query in Hst.
  unfold expandable, versions_for in Hs, Ht. rewrite Hst in Hs. congruence.
Qed.

Lemma slice_to_nonneg {A} (l : list A) (n : Z) :
  (0 <= n)%Z -> PyStr.slice_to l n = firstn (Z.to_nat n) l.
Proof.
  intros H. unfold PyStr.slice_to. apply Z.leb_le in H. now rewrite H.
Qed.

(** C1 (amended): every spec of the collection, bare or already carrying a
    version, is queried for the safe versions of its text before the at
    sign; the specs with safe versions are removed and, for each of them
    in turn, at most [max_versions] specs [prefix@version] are appended in
    the collaborator's order; the specs without safe versions stay, in
    their order. *)
Theorem expander_expands_every_spec (specs_to_check : list string)
    (max_versions : Z) (log : list command) :
  (0 <= max_versions)%Z ->
  expand_specs_to_check_package_versions subprocess_run specs_to_check
    max_versions log
  = (Ok (filter (fun s => negb (expandable subprocess_run s)) specs_to_check
         ++ flat_map
              (fun spec =>
                 map (fun version =>
                        PyStr.split0 PyStr.at_sign spec ^ "@" ^ version)
                     (firstn (Z.to_nat max_versions)
                        (versions_for subprocess_run spec)))
              (filter (expandable subprocess_run) specs_to_check)),
     log ++ map (fun spec =>
                   safe_versions_command
                     (PyStr.split0 PyStr.plus_sign
                        (PyStr.split0 PyStr.at_sign spec)))
                specs_to_check).
Proof.
  intros Hn. rewrite expand_spec. unfold expanded. do 3 f_equal.
  apply flat_map_ext. intros spec. unfold expansion.
  now rewrite slice_to_nonneg.
Qed.

(** C6: a spec for whose recipe the collaborator reports a non-success
    status or lists nothing stays in the collection as it was: the
    expander returns, and the spec occurs in the result as often as in
    the input. *)
Theorem soft_failure_keeps_spec (specs_to_check : list string)
    (max_versions : Z) (log : list command) (spec : string) :
  In spec specs_to_check ->
  soft_failure subprocess_run spec ->
  exists result,
    fst (expand_specs_to_check_package_versions subprocess_run
           specs_to_check max_versions log) = Ok result
    /\ In spec result
    /\ count_occ string_dec result spec
       = count_occ string_dec specs_to_check spec.
Proof.
  intros Hin Hsoft. apply soft_failure_no_versions in Hsoft.
  assert (Hs : expandable subprocess_run spec = false)
    by (unfold expandable; now rewrite Hsoft).
  rewrite expand_spec. eexists. split; [reflexivity|].
  assert (Hcount : count_occ string_dec
                     (expanded subprocess_run specs_to_check max_versions)
                     spec
                   = count_occ string_dec specs_to_check spec).
  { unfold expanded. rewrite count_occ_app, count_occ_filter, Hs. simpl.
    pose proof (not_expandable_not_appended max_versions specs_to_check
                  spec Hs) as Hnot.
    apply (count_occ_not_In string_dec) in Hnot. rewrite Hnot. lia. }
  split; [|exact Hcount].
  apply (count_occ_In string_dec). rewrite Hcount.
  now apply (count_occ_In string_dec).
Qed.

Lemma one_skipped_removed (pre post : list string) (d : string) :
  In d skip_versions ->
  (forall v, In v (pre ++ post) -> ~ In v skip_versions) ->
  fold_left (fun l s => remove_first s l) skip_versions (pre ++ d :: post)
  = pre ++ post.
Proof.
  intros Hd Hrest.
  assert (Hpre : ~ In d pre).
  { intros Hin. apply (Hrest d); [apply in_or_app; now left | assumption]. }
  assert (Hother : forall x, In x skip_versions -> x <> d ->
                             ~ In x (pre ++ d :: post)).
  { intros x Hx Hne Hin. apply in_app_or in Hin.
    destruct Hin as [Hin|[Hin|Hin]]; [|congruence|];
      apply (Hrest x); try assumption; apply in_or_app; tauto. }
  assert (Hclean : forall x, In x skip_versions -> ~ In x (pre ++ post)).
  { intros x Hx Hin. now apply (Hrest x). }
  unfold skip_versions in *. simpl in Hd.
  destruct Hd as [<-|[<-|[<-|[]]]]; simpl.
  - rewrite remove_first_middle by assumption.
    rewrite (remove_first_notin "develop") by (apply Hclean; simpl; tauto).
    rewrite (remove_first_notin "main") by (apply Hclean; simpl; tauto).
    reflexivity.
  - rewrite (remove_first_notin "master")
      by (apply Hother; [simpl; tauto | discriminate]).
    rewrite remove_first_middle by assumption.
    rewrite remove_first_notin; [reflexivity | apply Hclean; simpl; tauto].
  - rewrite (remove_first_notin "master")
      by (apply Hother; [simpl; tauto | discriminate]).
    rewrite (remove_first_notin "develop")
      by (apply Hother; [simpl; tauto | discriminate]).
    now rewrite remove_first_middle.
Qed.

(** C7: with a cap of 3 and a collaborator that lists five safe versions,
    one of them a development label ([master], [develop] or [main]), the
    expander replaces the spec by exactly three specs [prefix@version]:
    the first three of the four other versions, in the listed order. *)
Theorem expansion_cap_of_three (spec out errout : string)
    (pre post : list string) (dev : string) (log : list command) :
  subprocess_run (query_of spec) = (0%Z, out, errout) ->
  listed_versions (PyStr.strip out) = pre ++ dev :: post ->
  length (pre ++ dev :: post) = 5 ->
  In dev skip_versions ->
  (forall v, In v (pre ++ post) -> ~ In v skip_versions) ->
  fst (expand_specs_to_check_package_versions subprocess_run [spec] 3 log)
  = Ok (map (fun version =>
               PyStr.split0 PyStr.at_sign spec ^ "@" ^ version)
            (firstn 3 (pre ++ post)))
  /\ length (firstn 3 (pre ++ post)) = 3.
Proof.
  intros Hrun Hlisted Hlen Hdev Hrest.
  assert (Hv : versions_for subprocess_run spec = pre ++ post).
  { unfold versions_for, parse_safe_versions. rewrite Hrun. simpl Z.eqb.
    cbv iota. rewrite Hlisted. now apply one_skipped_removed. }
  assert (Hlen4 : length (pre ++ post) = 4).
  { rewrite length_app in *. simpl in Hlen. lia. }
  split.
  - assert (Hs : expandable subprocess_run spec = true).
    { unfold expandable. rewrite Hv.
      destruct (pre ++ post); [discriminate | reflexivity]. }
    rewrite expand_spec. unfold expanded. cbn [filter flat_map fst].
    rewrite Hs. cbn [negb flat_map app]. unfold expansion.
    rewrite Hv, app_nil_r. rewrite slice_to_nonneg by lia. reflexivity.
  - rewrite length_firstn. lia.
Qed.

(** C10: a spec [recipe+variants], with or without a version after it, is
    queried under the recipe name alone, and every spec appended for it
    is [recipe+variants@version]: the variants are kept, the version is
    replaced. *)
Theorem variants_kept_in_expansion (recipe variant_text suffix : string)
    (before after : list string) (max_versions : Z) (log : list command) :
  mem_char PyStr.plus_sign recipe = false ->
  mem_char PyStr.at_sign recipe = false ->
  mem_char PyStr.at_sign variant_text = false ->
  suffix = "" \/ (exists version, suffix = "@" ^ version) ->
  let spec := recipe ^ "+" ^ variant_text ^ suffix in
  let safe :=
    parse_safe_versions (subprocess_run (safe_versions_command recipe)) in
  expand_specs_to_check_package_versions subprocess_run
    (before ++ spec :: after) max_versions log
  = (Ok (filter (fun s => negb (expandable subprocess_run s))
                (before ++ spec :: after)
         ++ flat_map (expansion subprocess_run max_versions)
              (filter (expandable subprocess_run) before)
         ++ map (fun version =>
                   recipe ^ "+" ^ variant_text ^ "@" ^ version)
                (match safe with
                 | [] => []
                 | _ :: _ => PyStr.slice_to safe max_versions
                 end)
         ++ flat_map (expansion subprocess_run max_versions)
              (filter (expandable subprocess_run) after)),
     log ++ map query_of before
     ++ safe_versions_command recipe :: map query_of after).
Proof.
  intros Hplus Hat Hvat Hsuffix spec safe.
  assert (Hprefix : PyStr.split0 PyStr.at_sign spec
                    = recipe ^ "+" ^ variant_text).
  { unfold spec. destruct Hsuffix as [->|[version ->]].
    - replace (variant_text ^ "") with variant_text
        by (clear; induction variant_text; simpl; congruence).
      apply split0_whole. rewrite mem_char_append. simpl.
      now rewrite Hat, Hvat.
    - replace (recipe ^ "+" ^ variant_text ^ "@" ^ version)
        with ((recipe ^ "+" ^ variant_text) ^ String PyStr.at_sign version)
        by (now rewrite !append_assoc).
      apply split0_prefix. rewrite mem_char_append. simpl.
      now rewrite Hat, Hvat. }
  assert (Hrecipe : recipe_of spec = recipe).
  { unfold recipe_of. rewrite Hprefix. simpl.
    now apply split0_prefix. }
  assert (Hq : query_of spec = safe_versions_command recipe).
  { unfold query_of. now rewrite Hrecipe. }
  assert (Hv : versions_for subprocess_run spec = safe).
  { unfold versions_for. now rewrite Hq. }
  rewrite expand_spec. unfold expanded.
  rewrite map_app. cbn [map]. rewrite Hq. f_equal. f_equal. f_equal.
  rewrite filter_app, flat_map_app. f_equal. cbn [filter].
  unfold expandable at 1. rewrite Hv.
  destruct safe as [|v vs] eqn:Esafe; [reflexivity|].
  cbn [flat_map]. f_equal. unfold expansion. rewrite Hv, Hprefix.
  apply map_ext. intros version. now rewrite !append_assoc.
Qed.

End ExpansionProofs.

(** ** The Diff Spec Extractor *)

(** The loop body is the effect of the line applied to the locals: which
    effect depends on the line and on the context only, and removing the
    bare entry never raises. *)
Lemma loop_body_effect (st : locals) (line : string) :
  loop_body st line
  = apply_effect st
      (effect_of (changed_recipe st) (versions st) (next_line_is_version st)
         line).
Proof.
  unfold loop_body, effect_of.
  destruct (PyStr.startswith line "diff --git"); [reflexivity|].
  destruct line as [|c0 line']; [reflexivity|].
  destruct (negb (Ascii.eqb c0 PyStr.plus_sign)); [reflexivity|].
  destruct (Re.search Patterns.changed_path_re (String c0 line'))
    as [changed_file|].
  { destruct (Re.search Patterns.recipe_re changed_file); reflexivity. }
  destruct (PyStr.falsy (changed_recipe st)); [reflexivity|].
  destruct (Re.is_some (Re.search Patterns.version_start_re (String c0 line')));
    [reflexivity|].
  destruct (next_line_is_version st
            || Re.is_some (Re.search Patterns.version_re (String c0 line'))).
  - destruct (match Re.search Patterns.version_re (String c0 line') with
              | Some v => Some v
              | None => Re.search Patterns.quoted_re (String c0 line')
              end) as [v|]; [|reflexivity].
    rewrite remove_if_present_ok. simpl. now rewrite app_nil_r.
  - destruct (Re.search Patterns.variant_re (String c0 line')) as [v|];
      [|reflexivity].
    rewrite remove_if_present_ok. simpl. now rewrite <- app_assoc.
Qed.

Lemma for_lines_app (st : locals) (l1 l2 : list string) :
  for_lines st (l1 ++ l2) = obind (for_lines st l1) (fun st' => for_lines st' l2).
Proof.
  revert st. induction l1 as [|line l1 IH]; intros st; simpl; [reflexivity|].
  destruct (loop_body st line) as [st'|e]; simpl; [apply IH | reflexivity].
Qed.

(** A property kept by every iteration holds when the loop ends. *)
Lemma for_lines_invariant (P : locals -> Prop) :
  (forall st line st', P st -> loop_body st line = Ok st' -> P st') ->
  forall lines st st', P st -> for_lines st lines = Ok st' -> P st'.
Proof.
  intros Hstep. induction lines as [|line lines IH]; simpl; intros st st' HP H.
  - injection H as <-. exact HP.
  - destruct (loop_body st line) as [st1|e] eqn:E; simpl in H; [|discriminate].
    apply (IH st1); [apply (Hstep st line) | ]; assumption.
Qed.

Lemma falsy_false (s : string) : PyStr.falsy s = false -> s <> "".
Proof. destruct s; simpl; intros H; [discriminate | discriminate]. Qed.

(** A version or variant spec is appended under a current recipe only, and
    without recorded versions it is the one spec [recipe@version] or
    [recipe+variant]. *)
Lemma effect_specific (recipe : string) (vers : list string) (flag : bool)
    (line : string) (nv app : list string) (fl : bool) :
  effect_of recipe vers flag line = ESpecific nv app fl ->
  recipe <> ""
  /\ (vers = [] ->
      exists v, app = [recipe ^ "@" ^ v] \/ app = [recipe ^ "+" ^ v]).
Proof.
  unfold effect_of.
  destruct (PyStr.startswith line "diff --git"); [discriminate|].
  destruct line as [|c0 line']; [discriminate|].
  destruct (negb (Ascii.eqb c0 PyStr.plus_sign)); [discriminate|].
  destruct (Re.search Patterns.changed_path_re (String c0 line'));
    [discriminate|].
  destruct (PyStr.falsy recipe) eqn:Er; [discriminate|].
  apply falsy_false in Er.
  destruct (Re.is_some (Re.search Patterns.version_start_re (String c0 line')));
    [discriminate|].
  destruct (flag || Re.is_some (Re.search Patterns.version_re (String c0 line'))).
  - destruct (match Re.search Patterns.version_re (String c0 line') with
              | Some v => Some v
              | None => Re.search Patterns.quoted_re (String c0 line')
              end) as [v|]; [|discriminate].
    intros H. injection H as <- <- <-. split; [assumption|].
    intros _. exists v. now left.
  - destruct (Re.search Patterns.variant_re (String c0 line')) as [v|];
      [|discriminate].
    intros H. injection H as <- <- <-. split; [assumption|].
    intros ->. exists v. now right.
Qed.

(** A line that is not empty, is not the file-boundary marker and does not
    start with the addition marker leaves the locals as they are. *)
Lemma other_line_skipped (st : locals) (c0 : ascii) (rest : string) :
  PyStr.startswith (String c0 rest) "diff --git" = false ->
  Ascii.eqb c0 PyStr.plus_sign = false ->
  loop_body st (String c0 rest) = Ok st.
Proof.
  intros Hmarker Hplus. unfold loop_body. now rewrite Hmarker, Hplus.
Qed.

Lemma context_inv_step (st : locals) (line : string) (st' : locals) :
  context_inv st -> loop_body st line = Ok st' -> context_inv st'.
Proof.
  intros [Hv Hr]. rewrite loop_body_effect.
  destruct (effect_of _ _ _ line) as [| |e|f [r|]|fl|nv app fl] eqn:E;
    simpl; intros H; try discriminate; injection H as <-;
    unfold context_inv; simpl; try tauto.
  split; [assumption|]. intros _. apply in_or_app. right. now left.
Qed.

Lemma context_inv_initial : context_inv initial_locals.
Proof. split; [reflexivity | intros H; now elim H]. Qed.

Lemma context_inv_reset (st : locals) : context_inv (reset_context st).
Proof. split; [reflexivity | intros H; now elim H]. Qed.

Lemma plain_no_marker (R r v : string) :
  plain R = true -> R <> r ^ "@" ^ v /\ R <> r ^ "+" ^ v.
Proof.
  intros HR. apply plain_chars in HR. destruct HR as [Hp Ha].
  split; intros ->; rewrite mem_char_append in *; simpl in *;
    rewrite orb_true_r in *; discriminate.
Qed.

(** Among plain recipe names, a versioned or variant spec names its recipe
    without ambiguity. *)
Lemma appended_recipe_unique (R r x : string) :
  plain R = true -> plain r = true ->
  (exists v, x = r ^ "@" ^ v \/ x = r ^ "+" ^ v) ->
  (exists v, x = R ^ "@" ^ v \/ x = R ^ "+" ^ v) ->
  r = R.
Proof.
  intros HR Hr [v Hx] [v' Hx'].
  apply plain_chars in HR, Hr. destruct HR as [HRp HRa], Hr as [Hrp Hra].
  destruct Hx as [-> | ->], Hx' as [Hx'|Hx']; simpl in Hx';
    eapply marker_prefix_eq in Hx'; try (destruct Hx'; eassumption);
    assumption.
Qed.

Lemma bare_inv_step (R : string) (st : locals) (line : string) (st' : locals) :
  plain R = true -> context_inv st -> bare_inv R st ->
  loop_body st line = Ok st' -> bare_inv R st'.
Proof.
  intros HR [Hv Hcr] Hinv. rewrite loop_body_effect.
  destruct (effect_of _ _ _ line) as [| |e|f [r|]|fl|nv app fl] eqn:E;
    simpl; intros H; try discriminate; injection H as <-;
    try exact Hinv.
  - (* a path marker naming recipe [r] *)
    unfold bare_inv in *. simpl. intros Hall.
    apply Forall_app in Hall. destruct Hall as [Hall Hr].
    apply Forall_inv in Hr. destruct (Hinv Hall) as [Hle Hlt].
    rewrite !count_occ_app. split; [lia|].
    intros [v Hin].
    assert (Hold : exists v, In (R ^ "@" ^ v) (specs st)
                             \/ In (R ^ "+" ^ v) (specs st)).
    { exists v. destruct Hin as [Hin|Hin]; apply in_app_or in Hin;
        destruct Hin as [Hin|[Hin|[]]]; try tauto;
        exfalso; destruct (plain_no_marker r R v Hr) as [H1 H2];
        simpl in *; congruence. }
    apply Hlt in Hold. lia.
  - (* a version or a variant of the current recipe *)
    destruct (effect_specific _ _ _ _ _ _ _ E) as [Hne Hshape].
    destruct (Hshape Hv) as [v Happ]. clear Hshape.
    unfold bare_inv in *. simpl. intros Hall.
    destruct (Hinv Hall) as [Hle Hlt].
    assert (Hin : In (changed_recipe st) (recipes st)) by now apply Hcr.
    assert (Hplain : plain (changed_recipe st) = true)
      by (now apply (proj1 (Forall_forall _ _) Hall)).
    assert (Hx : forall x, In x app -> x <> R).
    { intros x Hx ->.
      destruct (plain_no_marker R (changed_recipe st) v HR) as [H1 H2].
      simpl in *.
      destruct Happ as [-> | ->]; destruct Hx as [Hx|[]]; congruence. }
    assert (Hforeign : forall y, In y app ->
              (exists v', y = R ^ "@" ^ v' \/ y = R ^ "+" ^ v') ->
              changed_recipe st = R).
    { intros y Hy Hshape.
      apply (appended_recipe_unique R (changed_recipe st) y);
        try assumption.
      exists v. destruct Happ as [-> | ->]; destruct Hy as [<-|[]]; tauto. }
    assert (Hcount : count_occ string_dec app R = 0).
    { apply count_occ_not_In. intros Hc. now apply (Hx R). }
    rewrite count_occ_app, Hcount.
    destruct (string_dec (changed_recipe st) R) as [Heq|Hneq].
    + rewrite Heq in *. rewrite count_occ_remove_first_same.
      apply (count_occ_In string_dec) in Hin. split; lia.
    + rewrite count_occ_remove_first_other by assumption.
      split; [lia|]. intros [v' Hspec].
      assert (Hold : exists v, In (R ^ "@" ^ v) (specs st)
                               \/ In (R ^ "+" ^ v) (specs st)).
      { exists v'.
        destruct Hspec as [Hs|Hs]; apply in_app_or in Hs;
          destruct Hs as [Hs|Hs];
          try (apply In_remove_first in Hs; tauto);
          exfalso; apply Hneq; apply (Hforeign _ Hs); exists v'; tauto. }
      apply Hlt in Hold. lia.
Qed.

Lemma scan_invariants (R stdout : string) (st : locals) :
  plain R = true -> scan_diff stdout = Ok st ->
  context_inv st /\ bare_inv R st.
Proof.
  intros HR. unfold scan_diff.
  apply (for_lines_invariant (fun st => context_inv st /\ bare_inv R st)).
  - intros s line s' [Hc Hb] Hstep. split.
    + now apply (context_inv_step s line).
    + now apply (bare_inv_step R s line).
  - split; [apply context_inv_initial|].
    intros _. simpl. split; [lia|]. intros [v [[]|[]]].
Qed.

(** C3 (amended): in a diff whose recipe names carry neither a plus nor an
    at sign and in which the path marker of recipe [R] occurs at most once
    among the added lines, the returned collection never holds the bare
    entry [R] next to an entry [R@version] or [R+variant]. *)
Theorem bare_entry_superseded (stdout R : string) (st : locals) :
  scan_diff stdout = Ok st ->
  plain R = true ->
  Forall (fun r => plain r = true) (recipes st) ->
  count_occ string_dec (recipes st) R <= 1 ->
  (exists v, In (R ^ "@" ^ v) (specs st) \/ In (R ^ "+" ^ v) (specs st)) ->
  ~ In R (specs st).
Proof.
  intros Hscan HR Hall Honce Hspecific Hin.
  destruct (scan_invariants R stdout st HR Hscan) as [_ Hbare].
  destruct (Hbare Hall) as [_ Hlt]. apply Hlt in Hspecific.
  apply (count_occ_In string_dec) in Hin. lia.
Qed.

(** ** Two diffs, one after the other *)

Lemma joined_remove (recipe : string) (earlier sa sb ra : list string) :
  In recipe ra ->
  (exists kept superseded,
      Permutation sb (kept ++ sa) /\ Permutation earlier (kept ++ superseded)
      /\ incl superseded ra) ->
  exists kept superseded,
    Permutation (remove_first recipe sb) (kept ++ remove_first recipe sa)
    /\ Permutation earlier (kept ++ superseded)
    /\ incl superseded ra.
Proof.
  intros Hra [kept [superseded [Hb [He Hincl]]]].
  destruct (in_dec string_dec recipe sa) as [Ha|Ha].
  - exists kept, superseded. split; [|now split].
    assert (Hinb : In recipe sb).
    { apply (Permutation_in recipe (Permutation_sym Hb)).
      apply in_or_app. now right. }
    apply Permutation_cons_app_inv with (a := recipe).
    rewrite <- (remove_first_perm recipe sb Hinb).
    rewrite Hb. apply Permutation_app_head. now apply remove_first_perm.
  - rewrite (remove_first_notin recipe sa Ha).
    destruct (in_dec string_dec recipe sb) as [Hinb|Hinb].
    + assert (Hk : In recipe kept).
      { apply (Permutation_in recipe Hb) in Hinb.
        apply in_app_or in Hinb. tauto. }
      apply in_split in Hk. destruct Hk as [k1 [k2 ->]].
      exists (k1 ++ k2), (recipe :: superseded). repeat split.
      * rewrite <- app_assoc.
        apply Permutation_cons_app_inv with (a := recipe).
        rewrite <- (remove_first_perm recipe sb Hinb). rewrite Hb.
        now rewrite <- !app_assoc.
      * rewrite He. rewrite <- !app_assoc. apply Permutation_app_head.
        simpl. apply Permutation_middle.
      * intros x [<-|Hx]; [assumption | now apply Hincl].
    + rewrite (remove_first_notin recipe sb Hinb).
      now exists kept, superseded.
Qed.

(** One iteration on the same line, from locals in the same context. *)
Lemma joined_step (earlier : list string) (a b : locals) (line : string)
    (a' : locals) :
  same_context a b -> context_inv a -> joined_collection earlier a b ->
  loop_body a line = Ok a' ->
  exists b', loop_body b line = Ok b'
             /\ same_context a' b' /\ joined_collection earlier a' b'.
Proof.
  intros [Hcr [Hvs [Hvar Hfl]]] [_ Hin] Hj.
  rewrite !loop_body_effect. rewrite <- Hcr, <- Hvs, <- Hfl.
  destruct (effect_of _ _ _ line) as [| |e|f [r|]|fl|nv app fl] eqn:E;
    simpl; intros H; try discriminate; injection H as <-;
    (eexists; split; [reflexivity|]);
    (split; [unfold same_context; simpl; repeat split; congruence|]);
    try exact Hj.
  - (* a path marker naming recipe [r] *)
    destruct Hj as [kept [superseded [Hb [He Hincl]]]].
    exists kept, superseded. simpl. repeat split; try assumption.
    + rewrite app_assoc. now apply Permutation_app_tail.
    + now apply incl_appl.
  - (* a version or a variant of the current recipe *)
    destruct (effect_specific _ _ _ _ _ _ _ E) as [Hne _].
    destruct (joined_remove (changed_recipe a) earlier (specs a) (specs b)
                (recipes a) (Hin Hne) Hj)
      as [kept [superseded [Hb [He Hincl]]]].
    exists kept, superseded. simpl. repeat split; try assumption.
    rewrite <- Hcr. rewrite app_assoc. now apply Permutation_app_tail.
Qed.

Lemma joined_for_lines (earlier : list string) (lines : list string) :
  forall a b a',
    same_context a b -> context_inv a -> joined_collection earlier a b ->
    for_lines a lines = Ok a' ->
    exists b', for_lines b lines = Ok b'
               /\ same_context a' b' /\ joined_collection earlier a' b'.
Proof.
  induction lines as [|line lines IH]; simpl; intros a b a' Hc Hi Hj H.
  - injection H as <-. now exists b.
  - destruct (loop_body a line) as [a1|e] eqn:Ea; simpl in H; [|discriminate].
    destruct (joined_step earlier a b line a1 Hc Hi Hj Ea)
      as [b1 [Eb [Hc1 Hj1]]].
    rewrite Eb. simpl. apply (IH a1 b1 a'); try assumption.
    now apply (context_inv_step a line).
Qed.

Lemma prefix_append (p s : string) :
  String.prefix p s = true -> exists t, s = p ^ t.
Proof.
  revert s. induction p as [|c p IH]; intros s; simpl.
  - intros _. now exists s.
  - destruct s as [|d s]; simpl; [discriminate|].
    destruct (ascii_dec c d) as [->|]; [|discriminate].
    intros H. destruct (IH s H) as [t ->]. now exists t.
Qed.

Lemma prefix_of_append (p t : string) : String.prefix p (p ^ t) = true.
Proof.
  induction p as [|c p IH]; simpl; [now destruct t|].
  destruct (ascii_dec c c); [assumption | congruence].
Qed.

(** A text that starts with the file-boundary marker has it at the start
    of its first line. *)
Lemma first_line_marker (diff : string) :
  PyStr.startswith diff "diff --git" = true ->
  exists line rest,
    PyStr.split PyStr.newline diff = line :: rest
    /\ PyStr.startswith line "diff --git" = true.
Proof.
  unfold PyStr.startswith. intros H.
  apply prefix_append in H. destruct H as [t ->]. simpl.
  destruct (PyStr.split PyStr.newline t) as [|h rest] eqn:E.
  - now apply split_not_nil in E.
  - exists ("diff --git" ^ h), rest.
    split; [reflexivity | apply prefix_of_append].
Qed.

Lemma loop_body_marker (st : locals) (line : string) :
  PyStr.startswith line "diff --git" = true ->
  loop_body st line = Ok (reset_context st).
Proof. intros H. unfold loop_body. now rewrite H. Qed.

(** X25: a second diff that starts with the file-boundary marker is
    parsed, after any first one, in the context it has alone: the joined
    text parses whenever both do, it ends in the same context, and its
    collection holds, up to order, the specs of the second diff and those
    of the first, except for bare entries of the first that recipes of the
    second superseded. *)
Theorem boundary_marker_resets_context (d1 d2 : string) (st1 st2 : locals) :
  PyStr.startswith d2 "diff --git" = true ->
  scan_diff d1 = Ok st1 ->
  scan_diff d2 = Ok st2 ->
  exists st,
    scan_diff (d1 ^ PyStr.nl ^ d2) = Ok st
    /\ changed_recipe st = changed_recipe st2
    /\ versions st = versions st2
    /\ variants st = variants st2
    /\ next_line_is_version st = next_line_is_version st2
    /\ exists kept superseded,
         Permutation (specs st) (kept ++ specs st2)
         /\ Permutation (specs st1) (kept ++ superseded)
         /\ incl superseded (recipes st2).
Proof.
  unfold scan_diff. intros Hmark H1 H2.
  destruct (first_line_marker d2 Hmark) as [line [rest [Esplit Hline]]].
  change (d1 ^ PyStr.nl ^ d2) with (d1 ^ String PyStr.newline d2).
  rewrite Esplit in H2. simpl in H2.
  rewrite (loop_body_marker initial_locals line Hline) in H2. simpl in H2.
  rewrite split_join, for_lines_app, H1, Esplit. simpl.
  rewrite (loop_body_marker st1 line Hline). simpl.
  assert (Hc0 : same_context (reset_context initial_locals)
                              (reset_context st1)) by (repeat split).
  assert (Hj0 : joined_collection (specs st1) (reset_context initial_locals)
                  (reset_context st1)).
  { exists (specs st1), []. simpl. rewrite app_nil_r.
    repeat split; try reflexivity. intros x []. }
  destruct (joined_for_lines (specs st1) rest (reset_context initial_locals)
              (reset_context st1) st2 Hc0
              (context_inv_reset initial_locals) Hj0 H2)
    as [st [Hst [Hc Hj]]].
  exists st. destruct Hc as [Hc1 [Hc2 [Hc3 Hc4]]].
  repeat split; try congruence. exact Hj.
Qed.

(** ** The concrete scenarios *)

(** [get_specs_to_check] on a collaborator that answers [gh pr diff] with
    status 0 and nothing on standard error: one command is issued, and the
    result is the loop run on the stripped output. *)
Lemma get_specs_to_check_scan (subprocess_run : command -> Z * string * string)
    (out errout : string) (log : list command) :
  subprocess_run ["gh"; "pr"; "diff"] = (0%Z, out, errout) ->
  PyStr.strip errout = "" ->
  get_specs_to_check subprocess_run log
  = (specs_of_diff (PyStr.strip out), log ++ [["gh"; "pr"; "diff"]]).
Proof.
  intros Hrun Herr. unfold get_specs_to_check, bind, run, lift.
  rewrite Hrun, Herr. reflexivity.
Qed.

(** C4: the diff of the concrete scenario, as its two lines alone and as a
    whole file block, yields exactly the collection [foo@2.1]: the bare
    entry for [foo] inserted at the path marker is removed when the version
    spec is appended. *)
Theorem concrete_scenario_foo_2_1 :
  fst (get_specs_to_check (Scenario.gh_answers Scenario.foo_2_1_two_lines) [])
  = Ok ["foo@2.1"]
  /\ fst (get_specs_to_check (Scenario.gh_answers Scenario.foo_2_1) [])
     = Ok ["foo@2.1"].
Proof. split; vm_compute; reflexivity. Qed.

(** C2: on one file block with two versions and two variants the code
    returns four specs, the two versions and the two variants: nothing is
    ever recorded in [versions], so no variant is combined with a
    version. *)
Theorem versions_never_combined :
  fst (get_specs_to_check
         (Scenario.gh_answers Scenario.foo_versions_variants) [])
  = Ok ["foo@1.0"; "foo@2.0"; "foo+shared"; "foo+mpi"].
Proof. vm_compute. reflexivity. Qed.

(** C5: on a version line with a further quoted token followed by a comma
    and a space, the greedy group runs to the last such place: the version
    taken is not the first quoted token [2.1]. *)
Theorem version_group_is_greedy :
  fst (get_specs_to_check (Scenario.gh_answers Scenario.foo_deprecated) [])
  = Ok ["foo@2.1" ^ PyStr.q ^ ", sha256=" ^ PyStr.q ^ "abc"].
Proof. vm_compute. reflexivity. Qed.

(** C8: on an empty diff, whose only line is the empty line, the test of
    the first character raises [IndexError]; so does an empty line inside a
    diff. *)
Theorem empty_line_raises :
  fst (get_specs_to_check (Scenario.gh_answers "") []) = Raise IndexError
  /\ (forall st, loop_body st "" = Raise IndexError)
  /\ fst (get_specs_to_check
            (Scenario.gh_answers
               (Scenario.foo_bare ^ PyStr.nl ^ PyStr.nl
                ^ Scenario.foo_two_versions)) [])
     = Raise IndexError.
Proof. repeat split; vm_compute; reflexivity. Qed.

(** ** Counterexamples to the claims as stated *)

(** C1 as stated fails: a spec that already carries a version is queried
    and replaced like a bare one. *)
Lemma versioned_spec_is_expanded :
  expand_specs_to_check_package_versions
    (Scenario.spack_answers 0 Scenario.safe_output) ["foo@2.1"] 3 []
  = (Ok ["foo@2.4.1"; "foo@2.3"; "foo@2.2"],
     [["bin/spack"; "versions"; "--safe"; "foo"]])
  /\ ~ In "foo@2.1" ["foo@2.4.1"; "foo@2.3"; "foo@2.2"].
Proof.
  split; [vm_compute; reflexivity|].
  intros [H|[H|[H|[]]]]; discriminate.
Qed.

(** C3 as stated fails: a path marker for [foo] after a version of [foo]
    appends the bare entry again. *)
Lemma bare_entry_appended_again :
  specs_of_diff Scenario.foo_version_then_path = Ok ["foo@1.0"; "foo"]
  /\ In "foo" ["foo@1.0"; "foo"]
  /\ In ("foo" ^ "@" ^ "1.0") ["foo@1.0"; "foo"].
Proof. split; [vm_compute; reflexivity | simpl; tauto]. Qed.

(** ** The theorems at concrete inputs *)

Lemma expander_expands_every_spec_witness :
  (0 <= 2)%Z
  /\ expand_specs_to_check_package_versions
       (Scenario.spack_fails_for "bar") ["foo@2.1"; "bar"; "zlib+pic"] 2 []
     = (Ok ["bar"; "foo@2.4.1"; "foo@2.3"; "zlib+pic@2.4.1"; "zlib+pic@2.3"],
        [["bin/spack"; "versions"; "--safe"; "foo"];
         ["bin/spack"; "versions"; "--safe"; "bar"];
         ["bin/spack"; "versions"; "--safe"; "zlib"]]).
Proof.
  split; [lia|].
  apply (expander_expands_every_spec (Scenario.spack_fails_for "bar")
           ["foo@2.1"; "bar"; "zlib+pic"] 2 []).
  lia.
Defined.

Lemma soft_failure_keeps_spec_witness :
  In "bar" ["foo@2.1"; "bar"; "zlib+pic"]
  /\ soft_failure (Scenario.spack_fails_for "bar") "bar"
  /\ exists result,
       fst (expand_specs_to_check_package_versions
              (Scenario.spack_fails_for "bar")
              ["foo@2.1"; "bar"; "zlib+pic"] 2 []) = Ok result
       /\ In "bar" result
       /\ count_occ string_dec result "bar"
          = count_occ string_dec ["foo@2.1"; "bar"; "zlib+pic"] "bar".
Proof.
  assert (Hin : In "bar" ["foo@2.1"; "bar"; "zlib+pic"])
    by (simpl; tauto).
  assert (Hsoft : soft_failure (Scenario.spack_fails_for "bar") "bar")
    by (vm_compute; left; discriminate).
  split; [exact Hin|]. split; [exact Hsoft|].
  exact (soft_failure_keeps_spec (Scenario.spack_fails_for "bar")
           ["foo@2.1"; "bar"; "zlib+pic"] 2 [] "bar" Hin Hsoft).
Defined.

Lemma expansion_cap_of_three_witness :
  fst (expand_specs_to_check_package_versions
         (Scenario.spack_answers 0 Scenario.safe_output) ["wget"] 3 [])
  = Ok ["wget@2.4.1"; "wget@2.3"; "wget@2.2"]
  /\ length (firstn 3 ([] ++ ["2.4.1"; "2.3"; "2.2"; "2.1"])) = 3.
Proof.
  apply (expansion_cap_of_three
           (Scenario.spack_answers 0 Scenario.safe_output)
           "wget" Scenario.safe_output "" []
           ["2.4.1"; "2.3"; "2.2"; "2.1"] "master" []).
  - reflexivity.
  - vm_compute. reflexivity.
  - reflexivity.
  - simpl. tauto.
  - intros v Hv Hskip. simpl in Hv, Hskip.
    destruct Hv as [<-|[<-|[<-|[<-|[]]]]];
      destruct Hskip as [H|[H|[H|[]]]]; discriminate.
Defined.

Lemma variants_kept_in_expansion_witness :
  expand_specs_to_check_package_versions
    (Scenario.spack_answers 0 Scenario.safe_output)
    (["zlib"] ++ ("foo" ^ "+" ^ "bar" ^ "@1.2") :: []) 2 []
  = (Ok ["zlib@2.4.1"; "zlib@2.3"; "foo+bar@2.4.1"; "foo+bar@2.3"],
     [["bin/spack"; "versions"; "--safe"; "zlib"];
      ["bin/spack"; "versions"; "--safe"; "foo"]]).
Proof.
  apply (variants_kept_in_expansion
           (Scenario.spack_answers 0 Scenario.safe_output)
           "foo" "bar" "@1.2" ["zlib"] [] 2 []).
  - reflexivity.
  - reflexivity.
  - reflexivity.
  - right. exists "1.2". reflexivity.
Defined.

Lemma bare_entry_superseded_witness :
  scan_diff Scenario.foo_2_1 = Ok Scenario.foo_2_1_locals
  /\ count_occ string_dec (recipes Scenario.foo_2_1_locals) "foo" <= 1
  /\ In ("foo" ^ "@" ^ "2.1") (specs Scenario.foo_2_1_locals)
  /\ ~ In "foo" (specs Scenario.foo_2_1_locals).
Proof.
  assert (Hscan : scan_diff Scenario.foo_2_1 = Ok Scenario.foo_2_1_locals)
    by (vm_compute; reflexivity).
  assert (Honce : count_occ string_dec (recipes Scenario.foo_2_1_locals) "foo"
                  <= 1) by (vm_compute; lia).
  assert (Hin : In ("foo" ^ "@" ^ "2.1") (specs Scenario.foo_2_1_locals))
    by (simpl; tauto).
  repeat split; try assumption.
  apply (bare_entry_superseded Scenario.foo_2_1 "foo"
           Scenario.foo_2_1_locals Hscan).
  - reflexivity.
  - repeat constructor.
  - exact Honce.
  - exists "2.1". left. exact Hin.
Defined.

Lemma boundary_marker_resets_context_witness :
  exists st,
    scan_diff (Scenario.foo_bare ^ PyStr.nl ^ Scenario.foo_two_versions)
    = Ok st
    /\ changed_recipe st = changed_recipe Scenario.foo_two_versions_locals
    /\ versions st = versions Scenario.foo_two_versions_locals
    /\ variants st = variants Scenario.foo_two_versions_locals
    /\ next_line_is_version st
       = next_line_is_version Scenario.foo_two_versions_locals
    /\ exists kept superseded,
         Permutation (specs st)
           (kept ++ specs Scenario.foo_two_versions_locals)
         /\ Permutation (specs Scenario.foo_bare_locals) (kept ++ superseded)
         /\ incl superseded (recipes Scenario.foo_two_versions_locals).
Proof.
  apply (boundary_marker_resets_context Scenario.foo_bare
           Scenario.foo_two_versions Scenario.foo_bare_locals
           Scenario.foo_two_versions_locals).
  - vm_compute. reflexivity.
  - vm_compute. reflexivity.
  - vm_compute. reflexivity.
Defined.

(** ** More on the Diff Spec Extractor *)

Lemma effect_fails (recipe : string) (vers : list string) (flag : bool)
    (line : string) (e : exn) :
  effect_of recipe vers flag line = EFail e -> line = "" /\ e = IndexError.
Proof.
  unfold effect_of.
  destruct (PyStr.startswith line "diff --git"); [discriminate|].
  destruct line as [|c0 line'].
  { intros H. injection H as <-. now split. }
  destruct (negb (Ascii.eqb c0 PyStr.plus_sign)); [discriminate|].
  destruct (Re.search Patterns.changed_path_re (String c0 line'));
    [discriminate|].
  destruct (PyStr.falsy recipe); [discriminate|].
  destruct (Re.is_some (Re.search Patterns.version_start_re (String c0 line')));
    [discriminate|].
  destruct (flag || Re.is_some (Re.search Patterns.version_re (String c0 line'))).
  - destruct (match Re.search Patterns.version_re (String c0 line') with
              | Some v => Some v
              | None => Re.search Patterns.quoted_re (String c0 line')
              end); discriminate.
  - destruct (Re.search Patterns.variant_re (String c0 line')); discriminate.
Qed.

Lemma loop_body_raises (st : locals) (line : string) (e : exn) :
  loop_body st line = Raise e -> line = "" /\ e = IndexError.
Proof.
  rewrite loop_body_effect.
  destruct (effect_of _ _ _ line) as [| |x|f [r|]|fl|nv app fl] eqn:E;
    simpl; try discriminate.
  intros H. injection H as <-. now apply effect_fails in E.
Qed.

Lemma for_lines_raises (lines : list string) :
  forall st e, for_lines st lines = Raise e -> In "" lines /\ e = IndexError.
Proof.
  induction lines as [|line lines IH]; simpl; intros st e H; [discriminate|].
  destruct (loop_body st line) as [st'|x] eqn:E; simpl in H.
  - destruct (IH st' e H) as [Hin He]. tauto.
  - injection H as <-. apply loop_body_raises in E. destruct E as [-> ->].
    tauto.
Qed.

Lemma for_lines_empty_line (lines : list string) :
  In "" lines -> forall st, for_lines st lines = Raise IndexError.
Proof.
  induction lines as [|line lines IH]; simpl; intros Hin st; [contradiction|].
  destruct (loop_body st line) as [st'|x] eqn:E; simpl.
  - destruct Hin as [->|Hin]; [discriminate | now apply IH].
  - apply loop_body_raises in E. now destruct E as [_ ->].
Qed.

(** X1: the loop over the diff fails exactly when one of its lines is
    empty, and then with [IndexError]; on every other text it ends. *)
Theorem scan_fails_iff_empty_line (stdout : string) (e : exn) :
  scan_diff stdout = Raise e
  <-> In "" (PyStr.split PyStr.newline stdout) /\ e = IndexError.
Proof.
  unfold scan_diff. split.
  - apply for_lines_raises.
  - intros [Hin ->]. now apply for_lines_empty_line.
Qed.

Lemma irrelevant_line_skipped (st : locals) (line : string) :
  relevant_line line = false -> loop_body st line = Ok st.
Proof.
  unfold relevant_line. intros H. apply orb_false_iff in H.
  destruct H as [Hm Hp]. destruct line as [|c0 rest]; [discriminate|].
  now apply other_line_skipped.
Qed.

Lemma for_lines_relevant (st : locals) (lines : list string) :
  for_lines st lines = for_lines st (filter relevant_line lines).
Proof.
  revert st. induction lines as [|line lines IH]; intros st; [reflexivity|].
  simpl. destruct (relevant_line line) eqn:E.
  - simpl. destruct (loop_body st line); simpl; [apply IH | reflexivity].
  - rewrite (irrelevant_line_skipped st line E). simpl. apply IH.
Qed.

(** X2: removed lines and context lines do not count: the loop ends in the
    same locals, or raises the same exception, on the lines of the diff and
    on the addition lines, boundary markers and empty lines among them. *)
Theorem only_additions_and_markers_count (st : locals) (lines : list string) :
  for_lines st lines = for_lines st (filter relevant_line lines).
Proof. apply for_lines_relevant. Qed.

Lemma In_remove_first_other (x y : string) (l : list string) :
  In y l -> y <> x -> In y (remove_first x l).
Proof.
  induction l as [|z l IH]; simpl; [tauto|].
  intros [->|Hin] Hne.
  - destruct (String.eqb_spec x y) as [->|_]; [congruence | now left].
  - destruct (String.eqb_spec x z); [assumption | right; now apply IH].
Qed.

Lemma provenance_step (st : locals) (line : string) (st' : locals) :
  context_inv st ->
  (forall s, In s (specs st) -> exists r, In r (recipes st) /\ built_from r s) ->
  loop_body st line = Ok st' ->
  forall s, In s (specs st') -> exists r, In r (recipes st') /\ built_from r s.
Proof.
  intros [Hv Hcr] Hinv. rewrite loop_body_effect.
  destruct (effect_of _ _ _ line) as [| |e|f [r|]|fl|nv app fl] eqn:E;
    simpl; intros H; try discriminate; injection H as <-;
    try exact Hinv; simpl.
  - intros s Hs. apply in_app_or in Hs. destruct Hs as [Hs|[<-|[]]].
    + destruct (Hinv s Hs) as [r0 [Hr0 Hb]]. exists r0.
      split; [apply in_or_app; now left | assumption].
    + exists r. split; [apply in_or_app; right; now left | now left].
  - destruct (effect_specific _ _ _ _ _ _ _ E) as [Hne Hshape].
    destruct (Hshape Hv) as [v Happ]. clear Hshape.
    intros s Hs. apply in_app_or in Hs. destruct Hs as [Hs|Hs].
    + apply In_remove_first in Hs. now apply Hinv.
    + exists (changed_recipe st). split; [now apply Hcr|].
      right. exists v.
      destruct Happ as [-> | ->]; destruct Hs as [<-|[]]; tauto.
Qed.

(** X3: every spec of the returned collection is built from a recipe that
    a path marker of the diff names: it is that recipe bare, with a version
    or with a variant. *)
Theorem specs_come_from_named_recipes (stdout : string) (st : locals)
    (s : string) :
  scan_diff stdout = Ok st ->
  In s (specs st) ->
  exists r, In r (recipes st) /\ built_from r s.
Proof.
  intros Hscan. revert s.
  apply (for_lines_invariant
           (fun st => context_inv st
                      /\ forall s, In s (specs st) ->
                           exists r, In r (recipes st) /\ built_from r s))
    with (lines := PyStr.split PyStr.newline stdout)
         (st := initial_locals); [| |exact Hscan].
  - intros a line a' [Hc Hp] Hstep. split.
    + now apply (context_inv_step a line).
    + now apply (provenance_step a line).
  - split; [apply context_inv_initial | intros s []].
Qed.

Lemma built_from_plain (r cr : string) :
  plain cr = true -> built_from r cr -> cr = r.
Proof.
  intros Hp [H|[v H]]; [assumption|].
  destruct (plain_no_marker cr r v Hp) as [H1 H2].
  destruct H as [H|H]; congruence.
Qed.

Lemma represented_step (st : locals) (line : string) (st' : locals) :
  context_inv st ->
  (Forall (fun r => plain r = true) (recipes st) ->
   forall r, In r (recipes st) -> exists s, In s (specs st) /\ built_from r s) ->
  loop_body st line = Ok st' ->
  Forall (fun r => plain r = true) (recipes st') ->
  forall r, In r (recipes st') -> exists s, In s (specs st') /\ built_from r s.
Proof.
  intros [Hv Hcr] Hinv. rewrite loop_body_effect.
  destruct (effect_of _ _ _ line) as [| |e|f [r0|]|fl|nv app fl] eqn:E;
    simpl; intros H; try discriminate; injection H as <-;
    try exact Hinv; simpl.
  - intros Hall r Hr. apply Forall_app in Hall. destruct Hall as [Hall _].
    apply in_app_or in Hr. destruct Hr as [Hr|[<-|[]]].
    + destruct (Hinv Hall r Hr) as [s [Hs Hb]]. exists s.
      split; [apply in_or_app; now left | assumption].
    + exists r0. split; [apply in_or_app; right; now left | now left].
  - destruct (effect_specific _ _ _ _ _ _ _ E) as [Hne Hshape].
    destruct (Hshape Hv) as [v Happ]. clear Hshape.
    intros Hall r Hr. destruct (Hinv Hall r Hr) as [s [Hs Hb]].
    destruct (string_dec s (changed_recipe st)) as [->|Hneq].
    + assert (Hplain : plain (changed_recipe st) = true)
        by (apply (proj1 (Forall_forall _ _) Hall); now apply Hcr).
      apply built_from_plain in Hb; [|assumption]. subst r.
      destruct Happ as [-> | ->].
      * exists (changed_recipe st ^ "@" ^ v).
        split; [apply in_or_app; right; now left|].
        right. exists v. now left.
      * exists (changed_recipe st ^ "+" ^ v).
        split; [apply in_or_app; right; now left|].
        right. exists v. now right.
    + exists s. split; [|assumption].
      apply in_or_app. left. now apply In_remove_first_other.
Qed.

(** X4: no recipe is lost.  In a diff whose recipe names carry neither a
    plus nor an at sign, every recipe that a path marker names is still
    represented in the returned collection, bare, with a version or with a
    variant. *)
Theorem named_recipes_stay_represented (stdout : string) (st : locals)
    (r : string) :
  scan_diff stdout = Ok st ->
  Forall (fun r => plain r = true) (recipes st) ->
  In r (recipes st) ->
  exists s, In s (specs st) /\ built_from r s.
Proof.
  intros Hscan. revert r.
  assert (H : context_inv st
              /\ (Forall (fun r => plain r = true) (recipes st) ->
                  forall r, In r (recipes st) ->
                       exists s, In s (specs st) /\ built_from r s)).
  { apply (for_lines_invariant
             (fun st => context_inv st
                        /\ (Forall (fun r => plain r = true) (recipes st) ->
                            forall r, In r (recipes st) ->
                              exists s, In s (specs st) /\ built_from r s)))
      with (lines := PyStr.split PyStr.newline stdout)
           (st := initial_locals); [| |exact Hscan].
    - intros a line a' [Hc Hp] Hstep. split.
      + now apply (context_inv_step a line).
      + now apply (represented_step a line).
    - split; [apply context_inv_initial | intros _ r []]. }
  intros r Hall Hr. now apply (proj2 H).
Qed.

(** ** More on the safe versions and on the Version Expander *)

Lemma mem_char_rev_string (c : ascii) (s acc : string) :
  mem_char c (PyStr.rev_string acc s) = mem_char c acc || mem_char c s.
Proof.
  revert acc. induction s as [|d s IH]; intros acc; simpl.
  - now rewrite orb_false_r.
  - rewrite IH. simpl. destruct (Ascii.eqb d c), (mem_char c acc);
      simpl; rewrite ?orb_true_r; reflexivity.
Qed.

Lemma rev_string_not_empty (s acc : string) :
  s <> "" -> PyStr.rev_string acc s <> "".
Proof.
  revert acc. induction s as [|d s IH]; intros acc H; [congruence|].
  simpl. destruct s as [|e s]; [simpl; discriminate|].
  apply IH. discriminate.
Qed.

Lemma split_ws_aux_tokens (s : string) :
  forall cur,
    (forall c, mem_char c cur = true -> PyStr.isspace c = false) ->
    forall t, In t (PyStr.split_ws_aux cur s) -> is_token t.
Proof.
  assert (Hrev : forall cur,
             cur <> "" ->
             (forall c, mem_char c cur = true -> PyStr.isspace c = false) ->
             is_token (PyStr.rev_string "" cur)).
  { intros cur Hne Hcur. split; [now apply rev_string_not_empty|].
    intros c Hc. rewrite mem_char_rev_string in Hc. simpl in Hc.
    now apply Hcur. }
  induction s as [|d s IH]; intros cur Hcur t; simpl.
  - destruct cur as [|e cur]; [intros []|].
    intros [<-|[]]. apply Hrev; [discriminate | assumption].
  - destruct (PyStr.isspace d) eqn:Ed.
    + destruct cur as [|e cur].
      * apply IH. intros c Hc. discriminate.
      * intros [<-|Hin].
        -- apply Hrev; [discriminate | assumption].
        -- revert Hin. apply IH. intros c Hc. discriminate.
    + apply IH. intros c Hc. simpl in Hc. apply orb_true_iff in Hc.
      destruct Hc as [Hc|Hc]; [|now apply Hcur].
      apply Ascii.eqb_eq in Hc. now subst.
Qed.

Lemma listed_versions_tokens (stdout t : string) :
  In t (listed_versions stdout) -> is_token t.
Proof.
  unfold listed_versions. intros H. apply in_flat_map in H.
  destruct H as [line [_ Ht]].
  destruct (PyStr.startswith line "==> Safe versions"); [destruct Ht|].
  revert Ht. apply split_ws_aux_tokens. intros c Hc. discriminate.
Qed.

Lemma In_fold_remove (skip l : list string) (x : string) :
  In x (fold_left (fun l s => remove_first s l) skip l) -> In x l.
Proof.
  revert l. induction skip as [|s skip IH]; intros l; simpl; [tauto|].
  intros H. apply IH in H. now apply In_remove_first in H.
Qed.

Section MoreExpansion.

Variable subprocess_run : command -> Z * string * string.

(** X5: every safe version [get_safe_versions] returns is a token of the
    collaborator's output: it is not empty and holds no white space. *)
Theorem safe_versions_are_tokens (spec : string) (log : list command)
    (safe : list string) (v : string) :
  fst (get_safe_versions subprocess_run spec log) = Ok safe ->
  In v safe ->
  v <> "" /\ forall c, mem_char c v = true -> PyStr.isspace c = false.
Proof.
  rewrite get_safe_versions_spec. simpl. intros H. injection H as <-.
  unfold parse_safe_versions.
  destruct (subprocess_run _) as [[err out] errout].
  intros Hin. apply In_fold_remove in Hin.
  destruct (err =? 0)%Z; [|destruct Hin].
  now apply listed_versions_tokens in Hin.
Qed.

(** X6: of each development label ([master], [develop], [main]) only the
    first listed occurrence is dropped: a label listed [n] times is
    returned [n - 1] times, and every other version as often as listed. *)
Theorem only_first_label_dropped (spec out errout : string)
    (log : list command) (v : string) :
  subprocess_run (safe_versions_command (PyStr.split0 PyStr.plus_sign spec))
  = (0%Z, out, errout) ->
  exists safe,
    fst (get_safe_versions subprocess_run spec log) = Ok safe
    /\ count_occ string_dec safe v
       = if PyStr.contains v skip_versions
         then pred (count_occ string_dec (listed_versions (PyStr.strip out)) v)
         else count_occ string_dec (listed_versions (PyStr.strip out)) v.
Proof.
  intros Hrun. rewrite get_safe_versions_spec, Hrun. eexists.
  split; [reflexivity|].
  unfold parse_safe_versions, skip_versions. simpl.
  set (l := listed_versions (PyStr.strip out)).
  destruct (String.eqb_spec v "master") as [->|Hm].
  { simpl. rewrite !count_occ_remove_first_other by discriminate.
    apply count_occ_remove_first_same. }
  destruct (String.eqb_spec v "develop") as [->|Hd].
  { simpl. rewrite count_occ_remove_first_other by discriminate.
    rewrite count_occ_remove_first_same.
    now rewrite count_occ_remove_first_other by discriminate. }
  destruct (String.eqb_spec v "main") as [->|Hn].
  { simpl. rewrite count_occ_remove_first_same.
    now rewrite !count_occ_remove_first_other by discriminate. }
  simpl. now rewrite !count_occ_remove_first_other by congruence.
Qed.

Lemma expansion_zero (spec : string) : expansion subprocess_run 0 spec = [].
Proof. reflexivity. Qed.

(** X7: with a cap of 0 every spec that has safe versions is removed and
    nothing is appended for it: what is returned are the specs without safe
    versions. *)
Theorem cap_zero_drops_expandable (specs_to_check : list string)
    (log : list command) :
  expand_specs_to_check_package_versions subprocess_run specs_to_check 0 log
  = (Ok (filter (fun s => negb (expandable subprocess_run s)) specs_to_check),
     log ++ map query_of specs_to_check).
Proof.
  rewrite expand_spec. unfold expanded. do 2 f_equal.
  rewrite <- app_nil_r. f_equal.
  induction (filter (expandable subprocess_run) specs_to_check) as [|s l IH];
    [reflexivity|].
  cbn [flat_map]. now rewrite expansion_zero, IH.
Qed.

Lemma expansion_length (max_versions : Z) (spec : string) :
  (1 <= max_versions)%Z ->
  expandable subprocess_run spec = true ->
  1 <= length (expansion subprocess_run max_versions spec)
    <= Z.to_nat max_versions.
Proof.
  intros Hn He. unfold expansion. rewrite length_map.
  rewrite slice_to_nonneg by lia. rewrite length_firstn.
  unfold expandable in He.
  destruct (versions_for subprocess_run spec); [discriminate|]. simpl. lia.
Qed.

(** X8: with a cap of at least 1 the collection never shrinks and grows at
    most by the factor of the cap. *)
Theorem expansion_size_bounds (specs_to_check : list string)
    (max_versions : Z) (log : list command) :
  (1 <= max_versions)%Z ->
  exists result,
    fst (expand_specs_to_check_package_versions subprocess_run
           specs_to_check max_versions log) = Ok result
    /\ length specs_to_check <= length result
       <= Z.to_nat max_versions * length specs_to_check.
Proof.
  intros Hn. rewrite expand_spec. eexists. split; [reflexivity|].
  unfold expanded. rewrite length_app.
  induction specs_to_check as [|s l IH]; simpl; [lia|].
  destruct (expandable subprocess_run s) eqn:E; simpl.
  - rewrite length_app.
    pose proof (expansion_length max_versions s Hn E). nia.
  - nia.
Qed.

End MoreExpansion.

(** ** The commands run on the collection *)

Lemma index_In (x : string) (l : list string) :
  In x l -> exists i, PyLib.index x l = Ok i.
Proof.
  induction l as [|y l IH]; simpl; intros H; [contradiction|].
  destruct (String.eqb_spec y x) as [->|Hne]; [now exists 0|].
  destruct H as [H|H]; [congruence|].
  destruct (IH H) as [i ->]. now exists (S i).
Qed.

Lemma remove_each_filter (f : string -> bool) (l : list string) :
  forall kept,
    (forall s, In s kept -> f s = false) ->
    remove_each (filter f l) (kept ++ l)
    = Ok (kept ++ filter (fun s => negb (f s)) l).
Proof.
  induction l as [|x l IH]; intros kept Hkept; simpl; [reflexivity|].
  destruct (f x) eqn:E; simpl.
  - rewrite list_remove_In by (apply in_or_app; right; now left).
    rewrite remove_first_middle.
    + simpl. now apply IH.
    + intros Hin. apply Hkept in Hin. congruence.
  - replace (kept ++ x :: l) with ((kept ++ [x]) ++ l)
      by (now rewrite <- app_assoc).
    rewrite IH.
    + now rewrite <- app_assoc.
    + intros s Hs. apply in_app_or in Hs.
      destruct Hs as [Hs|[<-|[]]]; [now apply Hkept | assumption].
Qed.

(** X9: removing from the collection the specs that a test selects, each
    once and in their order, never raises and leaves the other specs in
    their order. *)
Theorem remove_each_selected (f : string -> bool) (specs_to_check : list string) :
  remove_each (filter f specs_to_check) specs_to_check
  = Ok (filter (fun s => negb (f s)) specs_to_check).
Proof.
  apply (remove_each_filter f specs_to_check []). intros s [].
Qed.

Section CommandProofs.

Variable subprocess_run : command -> Z * string * string.
Variable pexpect_spawn : command -> option Z.

Lemma find_loop_spec (recipes : list string) :
  forall installed findings log,
    find_loop subprocess_run recipes installed findings log
    = (Ok (installed ++ filter (is_installed subprocess_run) recipes,
           findings
           ++ map (finding_of subprocess_run)
                (filter (is_installed subprocess_run) recipes)),
       log ++ map find_command recipes).
Proof.
  induction recipes as [|r recipes IH]; intros installed findings log.
  - simpl. unfold ret. now rewrite !app_nil_r.
  - cbn [find_loop]. unfold bind at 1. unfold run at 1.
    destruct (subprocess_run (find_command r)) as [[err out] errout] eqn:E.
    assert (Hi : is_installed subprocess_run r = (err =? 0)%Z)
      by (unfold is_installed; now rewrite E).
    assert (Hf : finding_of subprocess_run r
                 = PyLib.replace " build_system=python_pip" ""
                     (PyStr.strip out))
      by (unfold finding_of; now rewrite E).
    cbn [filter]. rewrite Hi.
    destruct (err =? 0)%Z; rewrite IH; cbn [map];
      rewrite ?Hf, <- ?app_assoc; reflexivity.
Qed.

(** X10: [find_already_installed] asks [spack find] once per spec, in
    order; the installed specs are those answered with status 0, in their
    order, and the findings are theirs, one for one. *)
Theorem installed_are_the_found (recipes : list string) (log : list command) :
  find_already_installed subprocess_run recipes log
  = (Ok (filter (is_installed subprocess_run) recipes,
         map (finding_of subprocess_run)
           (filter (is_installed subprocess_run) recipes)),
     log ++ map find_command recipes).
Proof. unfold find_already_installed. now rewrite find_loop_spec. Qed.

Lemma uninstall_all (installed : list string) :
  forall log,
    Forall (fun r => uninstall_status subprocess_run r = 0%Z) installed ->
    spack_uninstall_packages subprocess_run installed log
    = (Ok tt, log ++ map uninstall_command installed).
Proof.
  induction installed as [|r rest IH]; intros log Hall.
  - simpl. unfold ret. now rewrite app_nil_r.
  - inversion Hall as [|x l Hr Hrest]; subst.
    cbn [spack_uninstall_packages]. unfold bind at 1, run at 1.
    unfold uninstall_status in Hr.
    destruct (subprocess_run (uninstall_command r)) as [[z out] errout].
    subst z. simpl. rewrite IH by assumption.
    now rewrite <- app_assoc.
Qed.

Lemma uninstall_fails (before after : list string)
    (recipe : string) (log : list command) :
  Forall (fun r => uninstall_status subprocess_run r = 0%Z) before ->
  uninstall_status subprocess_run recipe <> 0%Z ->
  spack_uninstall_packages subprocess_run (before ++ recipe :: after) log
  = (Raise (SystemExit (uninstall_status subprocess_run recipe)),
     log ++ map uninstall_command (before ++ [recipe])).
Proof.
  revert log. induction before as [|r rest IH]; intros log Hall Hfail.
  - cbn [app spack_uninstall_packages map]. unfold bind, run.
    unfold uninstall_status in *.
    destruct (subprocess_run (uninstall_command recipe)) as [[z out] errout].
    apply Z.eqb_neq in Hfail. now rewrite Hfail.
  - inversion Hall as [|x l Hr Hrest]; subst.
    cbn [app spack_uninstall_packages map]. unfold bind at 1, run at 1.
    unfold uninstall_status in Hr.
    destruct (subprocess_run (uninstall_command r)) as [[z out] errout].
    subst z. simpl. rewrite IH by assumption.
    now rewrite <- app_assoc.
Qed.

(** X11: [spack_uninstall_packages] stops at the first spec whose
    uninstall fails: it raises [SystemExit] with that status, and no
    command is issued for the specs after it. *)
Theorem uninstall_stops_at_first_failure (before after : list string)
    (recipe : string) (log : list command) :
  Forall (fun r => uninstall_status subprocess_run r = 0%Z) before ->
  uninstall_status subprocess_run recipe <> 0%Z ->
  spack_uninstall_packages subprocess_run (before ++ recipe :: after) log
  = (Raise (SystemExit (uninstall_status subprocess_run recipe)),
     log ++ map uninstall_command (before ++ [recipe])).
Proof. intros Hall Hfail. now apply uninstall_fails. Qed.

Lemma downloads_loop_all (specs todo : list string) :
  forall log,
    incl todo specs ->
    Forall (fun s => fetch_goes_on pexpect_spawn s = true) todo ->
    downloads_loop pexpect_spawn specs todo log
    = (Ok 0%Z, log ++ map fetch_command todo).
Proof.
  induction todo as [|s rest IH]; intros log Hincl Hall.
  - simpl. unfold ret. now rewrite app_nil_r.
  - inversion Hall as [|x l Hs Hrest]; subst.
    cbn [downloads_loop]. unfold bind at 1, lift at 1.
    destruct (index_In s specs) as [i ->]; [apply Hincl; now left|].
    unfold bind at 1, spawn at 1. unfold fetch_goes_on, fetch_command in Hs.
    destruct (pexpect_spawn ("bin/spack" :: fetch_arguments s)) as [z|].
    + rewrite Hs. rewrite IH; [|intros x Hx; apply Hincl; now right|assumption].
      cbn [map]. now rewrite <- app_assoc.
    + rewrite IH; [|intros x Hx; apply Hincl; now right|assumption].
      cbn [map]. now rewrite <- app_assoc.
Qed.

Lemma downloads_loop_fails (specs before after : list string) (spec : string)
    (z : Z) :
  forall log,
    incl (before ++ spec :: after) specs ->
    Forall (fun s => fetch_goes_on pexpect_spawn s = true) before ->
    pexpect_spawn (fetch_command spec) = Some z -> z <> 0%Z ->
    downloads_loop pexpect_spawn specs (before ++ spec :: after) log
    = (Ok z, log ++ map fetch_command (before ++ [spec])).
Proof.
  induction before as [|s rest IH]; intros log Hincl Hall Hs Hz.
  - cbn [app downloads_loop map]. unfold bind at 1, lift at 1.
    destruct (index_In spec specs) as [i ->]; [apply Hincl; now left|].
    unfold bind, spawn. unfold fetch_command in Hs. rewrite Hs.
    apply Z.eqb_neq in Hz. now rewrite Hz.
  - inversion Hall as [|x l Hgo Hrest]; subst.
    cbn [app downloads_loop map]. unfold bind at 1, lift at 1.
    destruct (index_In s specs) as [i ->]; [apply Hincl; now left|].
    unfold bind at 1, spawn at 1. unfold fetch_goes_on, fetch_command in Hgo.
    assert (Hincl' : incl (rest ++ spec :: after) specs)
      by (intros x Hx; apply Hincl; now right).
    destruct (pexpect_spawn ("bin/spack" :: fetch_arguments s)) as [z0|].
    + rewrite Hgo. rewrite IH by assumption. now rewrite <- app_assoc.
    + rewrite IH by assumption. now rewrite <- app_assoc.
Qed.

(** X12: [check_all_downloads] stops at the first fetch that ends with a
    status other than 0 and returns that status; no spec after it is
    fetched.  A fetch ended by a signal does not stop it. *)
Theorem downloads_stop_at_first_failure (before after : list string)
    (spec : string) (z : Z) (log : list command) :
  Forall (fun s => fetch_goes_on pexpect_spawn s = true) before ->
  pexpect_spawn (fetch_command spec) = Some z -> z <> 0%Z ->
  check_all_downloads pexpect_spawn (before ++ spec :: after) log
  = (Ok z, log ++ map fetch_command (before ++ [spec])).
Proof.
  intros Hall Hs Hz. unfold check_all_downloads.
  apply downloads_loop_fails; try assumption. apply incl_refl.
Qed.

(** X13: [check_all_downloads] never raises, and it returns 0 exactly when
    no fetch ends with a status other than 0: every fetch ended with
    status 0 or was ended by a signal. *)
Theorem downloads_pass_iff (specs : list string) (log : list command) :
  (exists z, fst (check_all_downloads pexpect_spawn specs log) = Ok z)
  /\ (fst (check_all_downloads pexpect_spawn specs log) = Ok 0%Z
      <-> Forall (fun s => fetch_goes_on pexpect_spawn s = true) specs).
Proof.
  destruct (Forall_Exists_dec
              (fun s => fetch_goes_on pexpect_spawn s = true)
              (fun s => bool_dec (fetch_goes_on pexpect_spawn s) true)
              specs) as [Hall|Hex].
  - unfold check_all_downloads.
    rewrite downloads_loop_all by (try apply incl_refl; assumption).
    simpl. split; [now exists 0%Z | tauto].
  - assert (Hsplit : exists before spec after,
               specs = before ++ spec :: after
               /\ Forall (fun s => fetch_goes_on pexpect_spawn s = true) before
               /\ fetch_goes_on pexpect_spawn spec <> true).
    { clear log. induction specs as [|x l IH]; [inversion Hex|].
      destruct (bool_dec (fetch_goes_on pexpect_spawn x) true) as [Hx|Hx].
      - destruct IH as [b [s [a [-> [Hb Hs]]]]].
        + inversion Hex; [contradiction | assumption].
        + exists (x :: b), s, a. repeat split; [now constructor | assumption].
      - exists [], x, l. repeat split; [constructor | assumption]. }
    destruct Hsplit as [before [spec [after [-> [Hb Hs]]]]].
    unfold fetch_goes_on in Hs.
    destruct (pexpect_spawn (fetch_command spec)) as [z|] eqn:Ez;
      [|congruence].
    assert (Hz : z <> 0%Z) by (intros ->; now apply Hs).
    unfold check_all_downloads.
    rewrite (downloads_loop_fails _ before after spec z log
               (incl_refl _) Hb Ez Hz).
    simpl. split; [now exists z|]. split.
    + intros H. injection H as ->. congruence.
    + intros Hall. exfalso. apply Forall_app in Hall. destruct Hall as [_ Hall]. apply Forall_inv in Hall. unfold fetch_goes_on in Hall. rewrite Ez in Hall. apply Z.eqb_eq in Hall. congruence.
Qed.

Lemma install_loop_spec (specs todo : list string) :
  forall passed failed log,
    incl todo specs ->
    install_loop pexpect_spawn specs todo passed failed log
    = (Ok (passed ++ filter (install_passes pexpect_spawn) (to_install todo),
           failed
           ++ filter (fun s => negb (install_passes pexpect_spawn s))
                (to_install todo)),
       log ++ map install_command (to_install todo)).
Proof.
  induction todo as [|s rest IH]; intros passed failed log Hincl.
  - simpl. unfold ret. now rewrite !app_nil_r.
  - assert (Hincl' : incl rest specs) by (intros x Hx; apply Hincl; now right).
    cbn [install_loop]. unfold to_install. cbn [filter].
    fold (to_install rest).
    destruct (PyStr.startswith s "composable-kernel"); cbn [negb].
    + now apply IH.
    + unfold bind at 1, lift at 1.
      destruct (index_In s specs) as [i ->]; [apply Hincl; now left|].
      unfold bind at 1, spawn at 1. cbn [filter map].
      fold (install_command s). fold (install_passes pexpect_spawn s).
      destruct (install_passes pexpect_spawn s); cbn [negb];
        rewrite IH by assumption; rewrite <- !app_assoc; reflexivity.
Qed.

(** X14: [spack_install] never raises.  It runs [spack install] once for
    every spec that does not start with [composable-kernel], in order, and
    for no other; the passed specs are those whose install ends with
    status 0, the failed specs are the others, both in their order. *)
Theorem install_passed_and_failed (specs : list string) (log : list command) :
  spack_install pexpect_spawn specs log
  = (Ok (filter (install_passes pexpect_spawn) (to_install specs),
         filter (fun s => negb (install_passes pexpect_spawn s))
           (to_install specs)),
     log ++ map install_command (to_install specs)).
Proof.
  unfold spack_install. rewrite install_loop_spec by apply incl_refl.
  reflexivity.
Qed.

End CommandProofs.

(** ** [get_os_info] *)

Lemma split_at_separator (sep : ascii) (s : string) :
  mem_char sep s = true ->
  exists a b rest, PyStr.split sep s = a :: b :: rest.
Proof.
  induction s as [|c s IH]; simpl; [discriminate|].
  destruct (Ascii.eqb c sep) eqn:E; simpl.
  - intros _. destruct (PyStr.split sep s) as [|b rest] eqn:Es.
    + now apply split_not_nil in Es.
    + now exists "", b, rest.
  - intros H. destruct (IH H) as [a [b [rest ->]]].
    now exists (String c a), b, rest.
Qed.

Lemma os_release_value_ok (key line : string) :
  mem_char "="%char key = true ->
  PyStr.startswith line key = true ->
  os_release_value line
  = Ok (PyLib.strip_chars PyStr.q
          (PyStr.strip (nth 1 (PyStr.split "="%char line) ""))).
Proof.
  intros Hkey Hstart. unfold PyStr.startswith in Hstart.
  apply prefix_append in Hstart. destruct Hstart as [t ->].
  assert (Hmem : mem_char "="%char (key ^ t) = true)
    by (rewrite mem_char_append, Hkey; reflexivity).
  destruct (split_at_separator _ _ Hmem) as [a [b [rest E]]].
  unfold os_release_value, PyLib.getitem. now rewrite E.
Qed.

Lemma os_info_line_spec (about name vid line : string) :
  os_info_line (about, name, vid) line
  = Ok (if PyStr.startswith line "PRETTY_NAME="
        then about ^ " on " ^ os_value_of line else about,
        if PyStr.startswith line "NAME=" then os_value_of line else name,
        if PyStr.startswith line "VERSION_ID="
        then os_value_of line else vid).
Proof.
  unfold os_info_line.
  destruct (PyStr.startswith line "PRETTY_NAME=") eqn:E1;
    destruct (PyStr.startswith line "VERSION_ID=") eqn:E2;
    destruct (PyStr.startswith line "NAME=") eqn:E3;
    try rewrite (os_release_value_ok "PRETTY_NAME=" line eq_refl E1);
    try rewrite (os_release_value_ok "VERSION_ID=" line eq_refl E2);
    try rewrite (os_release_value_ok "NAME=" line eq_refl E3);
    reflexivity.
Qed.

Lemma last_cons_default {A} (x d : A) (l : list A) :
  last (x :: l) d = last l x.
Proof.
  revert x d. induction l as [|y l IH]; intros x d; [reflexivity|].
  change (last (x :: y :: l) d) with (last (y :: l) d).
  now rewrite (IH y d), (IH y x).
Qed.

Lemma os_info_lines_spec (lines : list string) :
  forall about name vid,
    os_info_lines (about, name, vid) lines
    = Ok (about
          ^ String.concat ""
              (map (fun line => " on " ^ os_value_of line)
                 (filter (fun line => PyStr.startswith line "PRETTY_NAME=")
                    lines)),
          last (map os_value_of
                  (filter (fun line => PyStr.startswith line "NAME=") lines))
               name,
          last (map os_value_of
                  (filter (fun line => PyStr.startswith line "VERSION_ID=")
                     lines))
               vid).
Proof.
  assert (Hnil : forall s : string, s ^ "" = s)
    by (induction s; simpl; congruence).
  assert (Hconcat : forall (x : string) l,
             String.concat "" (x :: l) = x ^ String.concat "" l).
  { intros x [|y l]; simpl; [now rewrite Hnil | reflexivity]. }
  induction lines as [|line lines IH]; intros about name vid.
  - simpl. now rewrite Hnil.
  - cbn [os_info_lines]. rewrite os_info_line_spec. cbn [obind].
    rewrite IH. cbn [filter].
    destruct (PyStr.startswith line "PRETTY_NAME=");
      destruct (PyStr.startswith line "NAME=");
      destruct (PyStr.startswith line "VERSION_ID=");
      cbn [map]; rewrite ?last_cons_default, ?Hconcat, ?append_assoc;
      reflexivity.
Qed.

(** X15: [get_os_info] never raises, whatever the text of the file: the
    second piece of a line it splits at the equals sign always exists.
    The host description joins the values of all [PRETTY_NAME=] lines, each
    after [ on ]; the name and the version are the values of the last
    [NAME=] line and of the last [VERSION_ID=] line, empty when there is
    none. *)
Theorem os_info_of_release_file (os_release : string) :
  get_os_info os_release
  = Ok (String.concat ""
          (map (fun line => " on " ^ os_value_of line)
             (filter (fun line => PyStr.startswith line "PRETTY_NAME=")
                (PyStr.split PyStr.newline os_release))),
        last (map os_value_of
                (filter (fun line => PyStr.startswith line "NAME=")
                   (PyStr.split PyStr.newline os_release)))
             "",
        last (map os_value_of
                (filter (fun line => PyStr.startswith line "VERSION_ID=")
                   (PyStr.split PyStr.newline os_release)))
             "").
Proof. unfold get_os_info. now rewrite os_info_lines_spec. Qed.

(** ** [main] *)

Section MainProofs.

Variable subprocess_run : command -> Z * string * string.
Variable pexpect_spawn : command -> option Z.
Variable input_answer : string.
Variable os_release : string.

Lemma get_specs_to_check_fails (rc : Z) (out errout : string)
    (log : list command) :
  subprocess_run ["gh"; "pr"; "diff"] = (rc, out, errout) ->
  rc <> 0%Z \/ PyStr.strip errout <> "" ->
  get_specs_to_check subprocess_run log
  = (Raise (SystemExit rc), log ++ [["gh"; "pr"; "diff"]]).
Proof.
  intros Hrun Hfail. unfold get_specs_to_check, bind, run, raise.
  rewrite Hrun. destruct Hfail as [Hrc|Herr].
  - apply Z.eqb_neq in Hrc. now rewrite Hrc.
  - destruct (PyStr.strip errout); [congruence|].
    simpl. now rewrite orb_true_r.
Qed.

(** X16: when [gh pr diff] ends with a status other than 0, or writes
    anything but white space to standard error, [main] raises [SystemExit]
    with that status (0 for a mere warning) and issues no other command. *)
Theorem main_stops_when_diff_fails (a : args) (rc : Z) (out errout : string)
    (log : list command) :
  subprocess_run ["gh"; "pr"; "diff"] = (rc, out, errout) ->
  rc <> 0%Z \/ PyStr.strip errout <> "" ->
  main subprocess_run pexpect_spawn input_answer os_release a log
  = (Raise (SystemExit rc), log ++ [["gh"; "pr"; "diff"]]).
Proof.
  intros Hrun Hfail. unfold main. unfold bind at 1.
  now rewrite (get_specs_to_check_fails rc out errout log Hrun Hfail).
Qed.

(** The first two steps of [main]: the diff and the optional expansion. *)
Lemma main_after_expansion (a : args) (out errout : string)
    (specs0 : list string) (log : list command) :
  subprocess_run ["gh"; "pr"; "diff"] = (0%Z, out, errout) ->
  PyStr.strip errout = "" ->
  specs_of_diff (PyStr.strip out) = Ok specs0 ->
  (specs_to_check <- get_specs_to_check subprocess_run ;;
   if truthy_int (safe_versions a)
   then expand_specs_to_check_package_versions subprocess_run specs_to_check
          (match safe_versions a with Some n => n | None => 0%Z end)
   else ret specs_to_check)%py log
  = (Ok (checked_specs subprocess_run a specs0),
     log ++ [["gh"; "pr"; "diff"]] ++ expansion_queries a specs0).
Proof.
  intros Hrun Herr Hscan. unfold bind.
  rewrite (get_specs_to_check_scan subprocess_run out errout log Hrun Herr).
  rewrite Hscan. unfold checked_specs, expansion_queries, truthy_int.
  destruct (safe_versions a) as [n|].
  - destruct (n =? 0)%Z; simpl.
    + unfold ret. now rewrite ?app_nil_r.
    + rewrite expand_spec. now rewrite <- app_assoc.
  - unfold ret. simpl. now rewrite ?app_nil_r.
Qed.

(** X17: with the download flag, [main] returns what the download check
    of the (optionally expanded) collection returns; after the diff and the
    queries for safe versions it issues fetch commands only. *)
Theorem main_download_only (a : args) (out errout : string)
    (specs0 : list string) (log : list command) :
  subprocess_run ["gh"; "pr"; "diff"] = (0%Z, out, errout) ->
  PyStr.strip errout = "" ->
  specs_of_diff (PyStr.strip out) = Ok specs0 ->
  download a = true ->
  main subprocess_run pexpect_spawn input_answer os_release a log
  = check_all_downloads pexpect_spawn (checked_specs subprocess_run a specs0)
      (log ++ [["gh"; "pr"; "diff"]] ++ expansion_queries a specs0).
Proof.
  intros Hrun Herr Hscan Hd. unfold main.
  rewrite Hd.
  pose proof (main_after_expansion a out errout specs0 log Hrun Herr Hscan)
    as H.
  unfold bind in *. 
  destruct (get_specs_to_check subprocess_run log) as [[s|e] l] eqn:E.
  - destruct (truthy_int (safe_versions a));
      rewrite H; reflexivity.
  - discriminate.
Qed.

(** What [main] does from the installs on. *)
Lemma main_report (a : args) (specs installed : list string)
    (about name vid : string) (log : list command) :
  get_os_info os_release = Ok (about, name, vid) ->
  let passed := filter (install_passes pexpect_spawn) (to_install specs) in
  let failed := filter (fun s => negb (install_passes pexpect_spawn s))
                  (to_install specs) in
  ('(passed, failed) <- spack_install pexpect_spawn specs ;;
   '(about_build_host, os_name, os_version_id) <-
     lift (get_os_info os_release) ;;
   _ <- run subprocess_run
          (["bin/spack"; "find"; "-v"] ++ installed ++ passed) ;;
   if PyLib.nonempty failed || negb (PyLib.nonempty (passed ++ installed))
   then ret 1%Z
   else
     if label_success a
     then _ <- run subprocess_run (label_command os_name os_version_id) ;;
          ret 0%Z
     else ret 0%Z)%py log
  = (Ok (exit_code passed failed installed),
     log ++ map install_command (to_install specs)
     ++ report_commands a passed failed installed name vid).
Proof.
  intros Hos passed failed. unfold bind at 1. unfold spack_install.
  rewrite install_loop_spec by apply incl_refl. cbn [app].
  fold passed. fold failed.
  unfold bind at 1, lift at 1. rewrite Hos.
  unfold bind at 1, run at 1. cbn [app].
  destruct (subprocess_run
              ("bin/spack" :: "find" :: "-v" :: installed ++ passed))
    as [[rc out] errout].
  unfold report_commands, exit_code.
  destruct (PyLib.nonempty failed || negb (PyLib.nonempty (passed ++ installed))).
  - unfold ret. cbn. now rewrite <- !app_assoc.
  - destruct (label_success a).
    + unfold bind, run, ret.
      destruct (subprocess_run (label_command name vid)) as [[rc2 o2] e2].
      cbn. now rewrite <- !app_assoc.
    + unfold ret. cbn. now rewrite <- !app_assoc.
Qed.

Lemma bind_bind_value {A B C} (m : M A) (f : A -> M B) (k : B -> M C)
    (log : list command) (v : B) (log' : list command) :
  bind m f log = (Ok v, log') ->
  bind m (fun x => bind (f x) k) log = k v log'.
Proof.
  unfold bind. destruct (m log) as [[x|e] l]; intros H;
    [now rewrite H | discriminate].
Qed.

(** [main] without the download flag, when nothing is uninstalled: no
    spec is found installed, or the uninstall flag is off, or the answer
    at the prompt is not [y]. *)
Lemma main_install_spec (a : args) (out errout : string)
    (specs0 : list string) (about name vid : string) (log : list command) :
  subprocess_run ["gh"; "pr"; "diff"] = (0%Z, out, errout) ->
  PyStr.strip errout = "" ->
  specs_of_diff (PyStr.strip out) = Ok specs0 ->
  get_os_info os_release = Ok (about, name, vid) ->
  download a = false ->
  let specs1 := checked_specs subprocess_run a specs0 in
  let installed := filter (is_installed subprocess_run) specs1 in
  let rest := filter (fun s => negb (is_installed subprocess_run s)) specs1 in
  let passed := filter (install_passes pexpect_spawn) (to_install rest) in
  let failed := filter (fun s => negb (install_passes pexpect_spawn s))
                  (to_install rest) in
  PyLib.nonempty installed && uninstall a
  && String.eqb (PyLib.lower input_answer) "y" = false ->
  main subprocess_run pexpect_spawn input_answer os_release a log
  = (Ok (exit_code passed failed installed),
     log ++ [["gh"; "pr"; "diff"]] ++ expansion_queries a specs0
     ++ map find_command specs1
     ++ map install_command (to_install rest)
     ++ report_commands a passed failed installed name vid).
Proof.
  intros Hrun Herr Hscan Hos Hd specs1 installed rest passed failed Hno.
  unfold main.
  erewrite bind_bind_value
    by (apply (main_after_expansion a out errout specs0 log); assumption).
  fold specs1. rewrite Hd.
  unfold bind at 1. unfold find_already_installed.
  rewrite find_loop_spec. cbn [app]. fold installed.
  unfold bind at 1. rewrite Hno. unfold ret at 1.
  unfold bind at 1, lift at 1.
  pose proof (remove_each_filter (is_installed subprocess_run) specs1 [])
    as Hrem.
  cbn [app] in Hrem. fold installed rest in Hrem.
  rewrite Hrem by (intros s []).
  rewrite (main_report a rest installed about name vid _ Hos).
  fold passed. fold failed. now rewrite <- !app_assoc.
Qed.

(** [main] without the download flag, after a confirmed uninstall of the
    specs found installed that succeeds for each of them. *)
Lemma main_reinstall_spec (a : args) (out errout : string)
    (specs0 : list string) (about name vid : string) (log : list command) :
  subprocess_run ["gh"; "pr"; "diff"] = (0%Z, out, errout) ->
  PyStr.strip errout = "" ->
  specs_of_diff (PyStr.strip out) = Ok specs0 ->
  get_os_info os_release = Ok (about, name, vid) ->
  download a = false ->
  let specs1 := checked_specs subprocess_run a specs0 in
  let installed := filter (is_installed subprocess_run) specs1 in
  let passed := filter (install_passes pexpect_spawn) (to_install specs1) in
  let failed := filter (fun s => negb (install_passes pexpect_spawn s))
                  (to_install specs1) in
  PyLib.nonempty installed && uninstall a
  && String.eqb (PyLib.lower input_answer) "y" = true ->
  Forall (fun r => uninstall_status subprocess_run r = 0%Z) installed ->
  main subprocess_run pexpect_spawn input_answer os_release a log
  = (Ok (exit_code passed failed []),
     log ++ [["gh"; "pr"; "diff"]] ++ expansion_queries a specs0
     ++ map find_command specs1
     ++ map uninstall_command installed
     ++ map install_command (to_install specs1)
     ++ report_commands a passed failed [] name vid).
Proof.
  intros Hrun Herr Hscan Hos Hd specs1 installed passed failed Hyes Hall.
  unfold main.
  erewrite bind_bind_value
    by (apply (main_after_expansion a out errout specs0 log); assumption).
  fold specs1. rewrite Hd.
  unfold bind at 1. unfold find_already_installed.
  rewrite find_loop_spec. cbn [app]. fold installed.
  unfold bind at 1. rewrite Hyes. unfold bind at 1.
  rewrite uninstall_all by assumption. unfold ret at 1.
  unfold bind at 1, lift at 1. cbn [remove_each].
  rewrite (main_report a specs1 [] about name vid _ Hos).
  fold passed. fold failed. now rewrite <- !app_assoc.
Qed.

(** [main] when a confirmed uninstall fails. *)
Lemma main_uninstall_fails_spec (a : args) (out errout : string)
    (specs0 before after : list string) (recipe : string)
    (log : list command) :
  subprocess_run ["gh"; "pr"; "diff"] = (0%Z, out, errout) ->
  PyStr.strip errout = "" ->
  specs_of_diff (PyStr.strip out) = Ok specs0 ->
  download a = false ->
  let specs1 := checked_specs subprocess_run a specs0 in
  filter (is_installed subprocess_run) specs1 = before ++ recipe :: after ->
  uninstall a && String.eqb (PyLib.lower input_answer) "y" = true ->
  Forall (fun r => uninstall_status subprocess_run r = 0%Z) before ->
  uninstall_status subprocess_run recipe <> 0%Z ->
  main subprocess_run pexpect_spawn input_answer os_release a log
  = (Raise (SystemExit (uninstall_status subprocess_run recipe)),
     log ++ [["gh"; "pr"; "diff"]] ++ expansion_queries a specs0
     ++ map find_command specs1
     ++ map uninstall_command (before ++ [recipe])).
Proof.
  intros Hrun Herr Hscan Hd specs1 Hinst Hyes Hall Hfail.
  unfold main.
  erewrite bind_bind_value
    by (apply (main_after_expansion a out errout specs0 log); assumption).
  fold specs1. rewrite Hd.
  unfold bind at 1. unfold find_already_installed.
  rewrite find_loop_spec. cbn [app]. rewrite Hinst.
  unfold bind at 1.
  replace (PyLib.nonempty (before ++ recipe :: after)) with true
    by (now destruct before).
  cbn [andb]. rewrite Hyes. unfold bind at 1.
  rewrite uninstall_fails by assumption.
  now rewrite <- !app_assoc.
Qed.

Lemma exit_code_zero (passed_of : string -> bool) (todo installed : list string) :
  exit_code (filter passed_of todo)
    (filter (fun s => negb (passed_of s)) todo) installed = 0%Z
  <-> Forall (fun s => passed_of s = true) todo
      /\ (todo <> [] \/ installed <> []).
Proof.
  unfold exit_code.
  assert (Hfailed : filter (fun s => negb (passed_of s)) todo = []
                    <-> Forall (fun s => passed_of s = true) todo).
  { induction todo as [|x l IH]; simpl; [split; constructor|].
    destruct (passed_of x) eqn:E; simpl.
    - rewrite IH. split; [intros H; now constructor | intros H; now inversion H].
    - split; [discriminate | intros H; inversion H; congruence]. }
  assert (Hpassed : Forall (fun s => passed_of s = true) todo ->
                    filter passed_of todo = todo).
  { clear Hfailed. induction todo as [|x l IH]; intros H; [reflexivity|].
    inversion H as [|y l' Hx Hl]; subst. simpl. rewrite Hx.
    now rewrite IH. }
  destruct (filter (fun s => negb (passed_of s)) todo) as [|f fs] eqn:Ef.
  - assert (Hall : Forall (fun s => passed_of s = true) todo)
      by now apply Hfailed.
    rewrite (Hpassed Hall). simpl.
    destruct todo as [|t ts]; destruct installed as [|i rest]; simpl;
      (split;
       [ intros H;
         first [ discriminate
               | split;
                 [assumption | (left; discriminate) || (right; discriminate)] ]
       | intros [_ [H|H]]; first [reflexivity | congruence] ]).
  - simpl. split; [discriminate|]. intros [Hall _].
    apply Hfailed in Hall. discriminate.
Qed.

(** X18: [main] without the download flag, when nothing is uninstalled (no
    spec is found installed, or the uninstall flag is off, or the answer at
    the prompt is not [y]).  After the diff and the queries for safe
    versions it asks [spack find] for every spec, installs the specs not
    found installed (those starting with [composable-kernel] left out) and
    no other, asks [spack find -v] for the installed and the passed specs,
    and labels the PR only when it returns 0 and the label flag is on. *)
Theorem main_installs_what_is_missing (a : args) (out errout : string)
    (specs0 : list string) (about name vid : string) (log : list command) :
  subprocess_run ["gh"; "pr"; "diff"] = (0%Z, out, errout) ->
  PyStr.strip errout = "" ->
  specs_of_diff (PyStr.strip out) = Ok specs0 ->
  get_os_info os_release = Ok (about, name, vid) ->
  download a = false ->
  let specs1 := checked_specs subprocess_run a specs0 in
  let installed := filter (is_installed subprocess_run) specs1 in
  let rest := filter (fun s => negb (is_installed subprocess_run s)) specs1 in
  let passed := filter (install_passes pexpect_spawn) (to_install rest) in
  let failed := filter (fun s => negb (install_passes pexpect_spawn s))
                  (to_install rest) in
  PyLib.nonempty installed && uninstall a
  && String.eqb (PyLib.lower input_answer) "y" = false ->
  main subprocess_run pexpect_spawn input_answer os_release a log
  = (Ok (exit_code passed failed installed),
     log ++ [["gh"; "pr"; "diff"]] ++ expansion_queries a specs0
     ++ map find_command specs1
     ++ map install_command (to_install rest)
     ++ report_commands a passed failed installed name vid).
Proof. exact (main_install_spec a out errout specs0 about name vid log). Qed.

(** X19: in the same case [main] returns 0 or 1, and 0 exactly when every
    install it ran ended with status 0 and at least one spec was installed
    by it or found installed. *)
Theorem main_returns_zero_iff (a : args) (out errout : string)
    (specs0 : list string) (log : list command) :
  subprocess_run ["gh"; "pr"; "diff"] = (0%Z, out, errout) ->
  PyStr.strip errout = "" ->
  specs_of_diff (PyStr.strip out) = Ok specs0 ->
  download a = false ->
  let specs1 := checked_specs subprocess_run a specs0 in
  let installed := filter (is_installed subprocess_run) specs1 in
  let rest := filter (fun s => negb (is_installed subprocess_run s)) specs1 in
  PyLib.nonempty installed && uninstall a
  && String.eqb (PyLib.lower input_answer) "y" = false ->
  exists code,
    fst (main subprocess_run pexpect_spawn input_answer os_release a log)
    = Ok code
    /\ (code = 0%Z \/ code = 1%Z)
    /\ (code = 0%Z
        <-> Forall (fun s => install_passes pexpect_spawn s = true)
              (to_install rest)
            /\ (to_install rest <> [] \/ installed <> [])).
Proof.
  intros Hrun Herr Hscan Hd specs1 installed rest Hno.
  destruct (get_os_info os_release) as [[[about name] vid]|e] eqn:Hos;
    [|unfold get_os_info in Hos; rewrite os_info_lines_spec in Hos; discriminate].
  rewrite (main_install_spec a out errout specs0 about name vid log
             Hrun Herr Hscan Hos Hd Hno).
  eexists. split; [reflexivity|]. split.
  - unfold exit_code. destruct (_ || _); tauto.
  - apply exit_code_zero.
Qed.

(** X20: after a confirmed uninstall that succeeds for every spec found
    installed, [main] installs every spec of the collection anew (those
    starting with [composable-kernel] left out), also the specs that were
    found installed, and counts none as installed before. *)
Theorem main_reinstalls_after_uninstall (a : args) (out errout : string)
    (specs0 : list string) (about name vid : string) (log : list command) :
  subprocess_run ["gh"; "pr"; "diff"] = (0%Z, out, errout) ->
  PyStr.strip errout = "" ->
  specs_of_diff (PyStr.strip out) = Ok specs0 ->
  get_os_info os_release = Ok (about, name, vid) ->
  download a = false ->
  let specs1 := checked_specs subprocess_run a specs0 in
  let installed := filter (is_installed subprocess_run) specs1 in
  let passed := filter (install_passes pexpect_spawn) (to_install specs1) in
  let failed := filter (fun s => negb (install_passes pexpect_spawn s))
                  (to_install specs1) in
  PyLib.nonempty installed && uninstall a
  && String.eqb (PyLib.lower input_answer) "y" = true ->
  Forall (fun r => uninstall_status subprocess_run r = 0%Z) installed ->
  main subprocess_run pexpect_spawn input_answer os_release a log
  = (Ok (exit_code passed failed []),
     log ++ [["gh"; "pr"; "diff"]] ++ expansion_queries a specs0
     ++ map find_command specs1
     ++ map uninstall_command installed
     ++ map install_command (to_install specs1)
     ++ report_commands a passed failed [] name vid).
Proof. exact (main_reinstall_spec a out errout specs0 about name vid log). Qed.

(** X21: when a confirmed uninstall fails for a spec, [main] raises
    [SystemExit] with the status of that uninstall: the specs after it are
    not uninstalled and nothing is installed. *)
Theorem main_stops_when_uninstall_fails (a : args) (out errout : string)
    (specs0 before after : list string) (recipe : string)
    (log : list command) :
  subprocess_run ["gh"; "pr"; "diff"] = (0%Z, out, errout) ->
  PyStr.strip errout = "" ->
  specs_of_diff (PyStr.strip out) = Ok specs0 ->
  download a = false ->
  let specs1 := checked_specs subprocess_run a specs0 in
  filter (is_installed subprocess_run) specs1 = before ++ recipe :: after ->
  uninstall a && String.eqb (PyLib.lower input_answer) "y" = true ->
  Forall (fun r => uninstall_status subprocess_run r = 0%Z) before ->
  uninstall_status subprocess_run recipe <> 0%Z ->
  main subprocess_run pexpect_spawn input_answer os_release a log
  = (Raise (SystemExit (uninstall_status subprocess_run recipe)),
     log ++ [["gh"; "pr"; "diff"]] ++ expansion_queries a specs0
     ++ map find_command specs1
     ++ map uninstall_command (before ++ [recipe])).
Proof.
  exact (main_uninstall_fails_spec a out errout specs0 before after recipe log).
Qed.

End MainProofs.

(** ** Matching: what the patterns find on lines of a known shape *)

Lemma match_lits (a : string) (p : Re.regex) (s : string) :
  Re.match_here (Re.lits a ++ p) (a ^ s) = Re.match_here p s.
Proof.
  induction a as [|c a IH]; simpl; [reflexivity|].
  now rewrite Ascii.eqb_refl.
Qed.

Lemma search_hit (p : Re.regex) (s g : string) :
  Re.match_here p s = Some g -> Re.search p s = Some g.
Proof. intros H. destruct s; simpl; now rewrite H. Qed.

Lemma search_step (p : Re.regex) (c : ascii) (s : string) :
  Re.match_here p (String c s) = None ->
  Re.search p (String c s) = Re.search p s.
Proof. intros H. simpl Re.search at 1. now rewrite H. Qed.

Lemma search_skip (c : ascii) (w : string) (p : Re.regex) (pre s : string) :
  mem_char c pre = false ->
  Re.search (Re.lits (String c w) ++ p) (pre ^ s)
  = Re.search (Re.lits (String c w) ++ p) s.
Proof.
  induction pre as [|d pre IH]; intros H; [reflexivity|].
  simpl in H. apply orb_false_iff in H. destruct H as [Hd Hpre].
  change (String d pre ^ s) with (String d (pre ^ s)).
  rewrite search_step; [now apply IH|].
  simpl. rewrite Ascii.eqb_sym. now rewrite Hd.
Qed.

Lemma search_no_first (c : ascii) (w : string) (p : Re.regex) (s : string) :
  mem_char c s = false ->
  Re.search (Re.lits (String c w) ++ p) s = None.
Proof.
  intros H. induction s as [|d s IH]; [reflexivity|].
  simpl in H. apply orb_false_iff in H. destruct H as [Hd Hs].
  rewrite search_step; [now apply IH|].
  simpl. rewrite Ascii.eqb_sym. now rewrite Hd.
Qed.

Lemma search_none_inv (p : Re.regex) (c : ascii) (s : string) :
  Re.search p (String c s) = None ->
  Re.match_here p (String c s) = None /\ Re.search p s = None.
Proof.
  simpl Re.search at 1.
  destruct (Re.match_here p (String c s)); [discriminate | tauto].
Qed.

Lemma search_none_here (p : Re.regex) (s : string) :
  Re.search p s = None -> Re.match_here p s = None.
Proof.
  destruct s as [|c s]; simpl.
  - now destruct (Re.match_here p "").
  - now destruct (Re.match_here p (String c s)).
Qed.

(** Where the pattern after the group matches nowhere, the group fails. *)
Lemma greedy_none (p : Re.regex) (s : string) :
  Re.search p s = None -> Re.greedy (Re.match_here p) s = None.
Proof.
  induction s as [|c s IH]; intros H.
  - apply search_none_here in H. simpl. now rewrite H.
  - destruct (search_none_inv p c s H) as [Hhere Htail].
    simpl. rewrite Hhere, (IH Htail). simpl.
    now destruct (Ascii.eqb c PyStr.newline).
Qed.

(** The group takes the text up to the last place where the rest of the
    pattern matches. *)
Lemma greedy_exact (p : Re.regex) (g t : string) :
  mem_char PyStr.newline g = false ->
  Re.is_some (Re.match_here p t) = true ->
  (forall c t', t = String c t' -> Re.search p t' = None) ->
  Re.greedy (Re.match_here p) (g ^ t) = Some g.
Proof.
  intros Hg Ht Htail. induction g as [|c g IH].
  - simpl. destruct t as [|c t']; simpl; [now rewrite Ht|].
    rewrite (greedy_none p t' (Htail c t' eq_refl)). rewrite Ht.
    now destruct (Ascii.eqb c PyStr.newline).
  - simpl in Hg. apply orb_false_iff in Hg. destruct Hg as [Hc Hg].
    simpl. rewrite Hc. now rewrite (IH Hg).
Qed.

Lemma greedy_all (k : string -> option string) (s : string) :
  mem_char PyStr.newline s = false ->
  Re.is_some (k "") = true ->
  Re.greedy k s = Some s.
Proof.
  intros Hs Hk. induction s as [|c s IH]; simpl; [now rewrite Hk|].
  simpl in Hs. apply orb_false_iff in Hs. destruct Hs as [Hc Hs].
  rewrite Hc. now rewrite (IH Hs).
Qed.

Lemma last_char_append (a b : string) :
  b <> "" -> last_char (a ^ b) = last_char b.
Proof.
  intros Hb. induction a as [|c a IH]; [reflexivity|].
  simpl. destruct (a ^ b) eqn:E; [|assumption].
  destruct a; simpl in E; [congruence | discriminate].
Qed.

Lemma last_char_mem (s : string) (c : ascii) :
  last_char s = Some c -> mem_char c s = true.
Proof.
  induction s as [|d s IH]; [discriminate|].
  simpl. destruct s as [|e s].
  - intros H. injection H as ->. now rewrite Ascii.eqb_refl.
  - intros H. rewrite (IH H). apply orb_true_r.
Qed.

Lemma last_char_some (s : string) :
  s <> "" -> exists c, last_char s = Some c.
Proof.
  induction s as [|c s IH]; [congruence|]. intros _.
  destruct s as [|d s]; [now exists c|].
  apply IH. discriminate.
Qed.

Lemma match_lits_dollar (w s g : string) :
  Re.match_here (Re.lits w ++ [Re.Dollar]) s = Some g ->
  s = w \/ s = w ^ PyStr.nl.
Proof.
  revert s. induction w as [|c w IH]; intros s; simpl.
  - destruct (String.eqb_spec s "") as [->|_]; [now left|].
    destruct (String.eqb_spec s PyStr.nl) as [->|_]; [now right|].
    discriminate.
  - destruct s as [|d s]; [discriminate|].
    destruct (Ascii.eqb_spec c d) as [->|_]; [|discriminate].
    intros H. destruct (IH s H) as [-> | ->]; [now left | now right].
Qed.

(** A match of a pattern that ends with the dollar ends where the line
    ends, or before a line break that ends it. *)
Lemma search_dollar_last (w s g : string) :
  w <> "" ->
  Re.search (Re.lits w ++ [Re.Dollar]) s = Some g ->
  last_char s = last_char w \/ last_char s = Some PyStr.newline.
Proof.
  intros Hw.
  assert (Hhere : forall s g,
             Re.match_here (Re.lits w ++ [Re.Dollar]) s = Some g ->
             last_char s = last_char w \/ last_char s = Some PyStr.newline).
  { intros s0 g0 H. apply match_lits_dollar in H.
    destruct H as [-> | ->]; [now left | right].
    now rewrite last_char_append by discriminate. }
  induction s as [|c s IH]; simpl Re.search.
  - destruct (Re.match_here (Re.lits w ++ [Re.Dollar]) "") eqn:E;
      [|discriminate].
    intros _. now apply (Hhere "" s).
  - destruct (Re.match_here (Re.lits w ++ [Re.Dollar]) (String c s)) eqn:E.
    + intros _. now apply (Hhere _ s0).
    + intros H. specialize (IH H).
      assert (Hs : s <> "").
      { intros ->. destruct (last_char_some w Hw) as [d Hd].
        simpl in IH. destruct IH as [IH|IH]; congruence. }
      destruct s as [|d s]; [congruence | exact IH].
Qed.

Lemma changed_path_found (path : string) :
  mem_char PyStr.newline path = false ->
  Re.search Patterns.changed_path_re ("+++ b/" ^ path) = Some path.
Proof.
  intros H. apply search_hit. unfold Patterns.changed_path_re.
  rewrite match_lits. simpl. now apply greedy_all.
Qed.

Lemma recipe_found (recipe : string) :
  mem_char PyStr.newline recipe = false ->
  Re.search Patterns.recipe_re
    ("var/spack/repos/builtin/packages/" ^ recipe ^ "/package.py")
  = Some recipe.
Proof.
  intros H. apply search_hit. unfold Patterns.recipe_re.
  rewrite match_lits.
  change (Re.match_here
            ([Re.GroupStar] ++ Re.lits "/package" ++ [Re.Dot] ++ Re.lits "py")
            (recipe ^ "/package.py"))
    with (Re.greedy
            (Re.match_here (Re.lits "/package" ++ [Re.Dot] ++ Re.lits "py"))
            (recipe ^ "/package.py")).
  apply greedy_exact; [assumption | reflexivity|].
  intros c t' E. injection E as <- <-. reflexivity.
Qed.

Lemma path_marker_step (st : locals) (recipe : string) :
  mem_char PyStr.newline recipe = false ->
  loop_body st (recipe_path_line recipe)
  = Ok (mkLocals
          (changed_files st
           ++ ["var/spack/repos/builtin/packages/" ^ recipe ^ "/package.py"])
          recipe
          (recipe_paths st
           ++ ["var/spack/repos/builtin/packages/" ^ recipe ^ "/package.py"])
          (recipes st ++ [recipe]) (specs st ++ [recipe])
          (variants st) (versions st) (next_line_is_version st)).
Proof.
  intros H. unfold loop_body, recipe_path_line.
  assert (Hpath : mem_char PyStr.newline
                    ("var/spack/repos/builtin/packages/" ^ recipe
                     ^ "/package.py") = false).
  { rewrite !mem_char_append, H. reflexivity. }
  rewrite (changed_path_found _ Hpath), (recipe_found _ H).
  reflexivity.
Qed.

(** X22: the addition line that names the file [package.py] of a recipe
    (a name without line break) makes it the current recipe and appends its
    bare entry to the collection, whatever the collection holds. *)
Theorem path_marker_sets_recipe (st : locals) (recipe : string) :
  mem_char PyStr.newline recipe = false ->
  loop_body st (recipe_path_line recipe)
  = Ok (mkLocals
          (changed_files st
           ++ ["var/spack/repos/builtin/packages/" ^ recipe ^ "/package.py"])
          recipe
          (recipe_paths st
           ++ ["var/spack/repos/builtin/packages/" ^ recipe ^ "/package.py"])
          (recipes st ++ [recipe]) (specs st ++ [recipe])
          (variants st) (versions st) (next_line_is_version st)).
Proof. apply path_marker_step. Qed.

Lemma no_path_marker (rest : string) :
  mem_char PyStr.plus_sign rest = false ->
  Re.search Patterns.changed_path_re ("+" ^ rest) = None.
Proof.
  intros H. unfold Patterns.changed_path_re.
  change ("+" ^ rest) with (String "+" rest).
  rewrite search_step.
  - now apply search_no_first.
  - destruct rest as [|d rest]; [reflexivity|].
    simpl in H. apply orb_false_iff in H. destruct H as [Hd _].
    rewrite Ascii.eqb_sym in Hd.
    change (Re.match_here (Re.lits "+++ b/" ++ [Re.GroupStar])
              (String "+" (String d rest)))
      with (if Ascii.eqb PyStr.plus_sign d
            then Re.match_here (Re.lits "+ b/" ++ [Re.GroupStar]) rest
            else None).
    now rewrite Hd.
Qed.

Lemma append_not_empty (a b : string) : b <> "" -> a ^ b <> "".
Proof. destruct a; simpl; [tauto | discriminate]. Qed.

Lemma no_version_opener (indent v tail : string) :
  mem_char "("%char tail = false ->
  mem_char PyStr.newline tail = false ->
  Re.search Patterns.version_start_re
    ("+" ^ indent ^ "version(" ^ PyStr.q ^ v ^ PyStr.q ^ ", " ^ tail) = None.
Proof.
  intros Hparen Hnl.
  destruct (Re.search _ _) as [g|] eqn:E; [|reflexivity]. exfalso.
  unfold Patterns.version_start_re in E.
  apply search_dollar_last in E; [|discriminate].
  assert (Hne : ", " ^ tail <> "") by discriminate.
  rewrite !last_char_append in E
    by (repeat first [exact Hne | apply append_not_empty]).
  assert (Hmem : forall c, last_char (", " ^ tail) = Some c ->
                           c <> "("%char /\ c <> PyStr.newline).
  { intros c Hc. apply last_char_mem in Hc. simpl in Hc.
    split; intros ->; simpl in Hc; congruence. }
  destruct E as [E|E]; apply Hmem in E; tauto.
Qed.

Lemma version_found (indent v tail : string) :
  mem_char "v"%char indent = false ->
  v <> "" ->
  mem_char PyStr.newline v = false ->
  Re.search (Re.lits (PyStr.q ^ ", ")) tail = None ->
  Re.search Patterns.version_re
    ("+" ^ indent ^ "version(" ^ PyStr.q ^ v ^ PyStr.q ^ ", " ^ tail)
  = Some v.
Proof.
  intros Hindent Hv Hnl Htail. unfold Patterns.version_re.
  rewrite (search_skip "v" "ersion(" _ "+") by reflexivity.
  rewrite (search_skip "v" "ersion(" _ indent) by assumption.
  apply search_hit. rewrite match_lits.
  destruct v as [|c v]; [congruence|].
  simpl in Hnl. apply orb_false_iff in Hnl. destruct Hnl as [Hc Hnl].
  change (Re.match_here
            ([Re.Lit PyStr.dquote; Re.GroupPlus; Re.Lit PyStr.dquote]
             ++ Re.lits ", ")
            (PyStr.q ^ String c v ^ PyStr.q ^ ", " ^ tail))
    with (if Ascii.eqb c PyStr.newline then None
          else option_map (String c)
                 (Re.greedy (Re.match_here (Re.lits (PyStr.q ^ ", ")))
                    (v ^ PyStr.q ^ ", " ^ tail))).
  rewrite Hc. rewrite greedy_exact; try assumption; [reflexivity | reflexivity|].
  intros d t' E. injection E as _ <-.
  change (", " ^ tail) with (String "," (String " " tail)).
  rewrite search_step by reflexivity.
  rewrite search_step by reflexivity.
  assumption.
Qed.

Lemma plain_version_decl_parts (indent v tail : string) :
  plain_version_decl (indent, v, tail) = true ->
  mem_char PyStr.plus_sign indent = false
  /\ mem_char "v"%char indent = false
  /\ mem_char PyStr.newline indent = false
  /\ v <> "" /\ mem_char PyStr.plus_sign v = false
  /\ mem_char PyStr.newline v = false
  /\ mem_char PyStr.plus_sign tail = false
  /\ mem_char "("%char tail = false
  /\ mem_char PyStr.newline tail = false
  /\ Re.search (Re.lits (PyStr.q ^ ", ")) tail = None.
Proof.
  unfold plain_version_decl. rewrite !andb_true_iff, !negb_true_iff.
  intros [[[[[[[[[H1 H2] H3] H4] H5] H6] H7] H8] H9] H10].
  repeat split; try assumption.
  - now apply falsy_false.
  - now destruct (Re.search (Re.lits (PyStr.q ^ ", ")) tail).
Qed.

Lemma version_decl_step (st : locals) (d : string * string * string) :
  plain_version_decl d = true ->
  changed_recipe st <> "" ->
  loop_body st (version_decl_line d)
  = Ok (set_specs st (variants st)
          (remove_first (changed_recipe st) (specs st)
           ++ [changed_recipe st ^ "@" ^ declared_version d])
          false).
Proof.
  destruct d as [[indent v] tail]. intros Hd Hcr.
  destruct (plain_version_decl_parts indent v tail Hd)
    as [Hip [Hiv [Hin [Hv [Hvp [Hvn [Htp [Htparen [Htn Htail]]]]]]]]].
  unfold loop_body, version_decl_line, declared_version.
  assert (Hplus : mem_char PyStr.plus_sign
                    (indent ^ "version(" ^ PyStr.q ^ v ^ PyStr.q ^ ", " ^ tail)
                  = false).
  { rewrite !mem_char_append, Hip, Hvp, Htp. reflexivity. }
  change (PyStr.startswith
            ("+" ^ indent ^ "version(" ^ PyStr.q ^ v ^ PyStr.q ^ ", " ^ tail)
            "diff --git") with false.
  cbv iota.
  rewrite (no_path_marker _ Hplus).
  rewrite (no_version_opener indent v tail Htparen Htn).
  rewrite (version_found indent v tail Hiv Hv Hvn Htail).
  change ("+" ^ indent ^ "version(" ^ PyStr.q ^ v ^ PyStr.q ^ ", " ^ tail)
    with (String "+"
            (indent ^ "version(" ^ PyStr.q ^ v ^ PyStr.q ^ ", " ^ tail)).
  cbv iota.
  change (negb (Ascii.eqb "+" PyStr.plus_sign)) with false. cbv iota.
  destruct (changed_recipe st) as [|c r] eqn:Er; [congruence|].
  cbn [PyStr.falsy Re.is_some]. rewrite orb_true_r.
  rewrite remove_if_present_ok. reflexivity.
Qed.

(** X23: an addition line that declares a version in the plain shape
    (see [plain_version_decl]), read under a current recipe, replaces one
    bare entry of that recipe, if there is one, by the entry
    [recipe@version] with the declared version, and clears the flag that
    awaits a version. *)
Theorem version_line_appends_spec (st : locals) (d : string * string * string) :
  plain_version_decl d = true ->
  changed_recipe st <> "" ->
  loop_body st (version_decl_line d)
  = Ok (set_specs st (variants st)
          (remove_first (changed_recipe st) (specs st)
           ++ [changed_recipe st ^ "@" ^ declared_version d])
          false).
Proof. apply version_decl_step. Qed.

Lemma not_own_extension (r : string) (c : ascii) (x : string) :
  r <> r ^ String c x.
Proof.
  induction r as [|a r IH]; simpl; [discriminate|].
  intros H. injection H as H. now apply IH.
Qed.

Lemma version_lines_loop (r : string) (ds : list (string * string * string)) :
  r <> "" ->
  forall st,
    changed_recipe st = r ->
    Forall (fun d => plain_version_decl d = true) ds ->
    exists st',
      for_lines st (map version_decl_line ds) = Ok st'
      /\ specs st'
         = fold_left
             (fun s d => remove_first r s ++ [r ^ "@" ^ declared_version d])
             ds (specs st).
Proof.
  intros Hr. induction ds as [|d ds IH]; intros st Hcr Hall.
  - exists st. now split.
  - inversion Hall as [|x l Hd Hds]; subst.
    cbn [map for_lines]. rewrite version_decl_step; [|assumption|assumption].
    cbn [obind].
    destruct (IH (set_specs st (variants st)
                    (remove_first (changed_recipe st) (specs st)
                     ++ [changed_recipe st ^ "@" ^ declared_version d])
                    false) eq_refl Hds) as [st' [Hloop Hspecs]].
    exists st'. split; [assumption|]. exact Hspecs.
Qed.

Lemma fold_versions (r : string) (ds : list (string * string * string)) :
  forall acc,
    ~ In r acc ->
    fold_left (fun s d => remove_first r s ++ [r ^ "@" ^ declared_version d])
      ds acc
    = acc ++ map (fun d => r ^ "@" ^ declared_version d) ds.
Proof.
  induction ds as [|d ds IH]; intros acc Hacc; simpl.
  - now rewrite app_nil_r.
  - rewrite (remove_first_notin r acc Hacc). rewrite IH.
    + now rewrite <- app_assoc.
    + intros Hin. apply in_app_or in Hin. destruct Hin as [Hin|[Hin|[]]].
      * now apply Hacc.
      * now apply (not_own_extension r "@" (declared_version d)).
Qed.

(** X24: a diff with one file-boundary marker, the path marker of the file
    [package.py] of a recipe and then addition lines that declare versions
    in the plain shape, among any number of removed and context lines,
    yields the bare recipe when no version is declared, and otherwise
    exactly the specs [recipe@version] of the declared versions, in the
    order of the lines. *)
Theorem one_file_block_yields_versions (stdout marker recipe : string)
    (ds : list (string * string * string)) :
  PyStr.startswith marker "diff --git" = true ->
  recipe <> "" ->
  mem_char PyStr.newline recipe = false ->
  Forall (fun d => plain_version_decl d = true) ds ->
  filter relevant_line (PyStr.split PyStr.newline stdout)
  = marker :: recipe_path_line recipe :: map version_decl_line ds ->
  specs_of_diff stdout
  = Ok (match ds with
        | [] => [recipe]
        | _ :: _ => map (fun d => recipe ^ "@" ^ declared_version d) ds
        end).
Proof.
  intros Hmarker Hne Hnl Hall Hlines.
  unfold specs_of_diff, scan_diff.
  rewrite for_lines_relevant, Hlines. cbn [for_lines].
  rewrite (loop_body_marker _ marker Hmarker). cbn [obind].
  rewrite (path_marker_step _ recipe Hnl). cbn [obind].
  match goal with
  | |- context [for_lines ?s (map version_decl_line ds)] =>
      destruct (version_lines_loop recipe ds Hne s eq_refl Hall)
        as [st' [Hloop Hspecs]]
  end.
  rewrite Hloop. cbn [obind]. f_equal. rewrite Hspecs. simpl specs.
  destruct ds as [|d ds]; [reflexivity|].
  simpl fold_left. rewrite String.eqb_refl. simpl app.
  rewrite fold_versions; [reflexivity|].
  intros [Hin|[]]. symmetry in Hin.
  now apply (not_own_extension recipe "@" (declared_version d)).
Qed.

(** ** Two independent diffs, one after the other *)

Lemma remove_first_app_notin (x : string) (l1 l2 : list string) :
  ~ In x l1 -> remove_first x (l1 ++ l2) = l1 ++ remove_first x l2.
Proof.
  induction l1 as [|y l1 IH]; simpl; intros H; [reflexivity|].
  destruct (String.eqb_spec x y) as [->|Hne].
  - exfalso. apply H. now left.
  - f_equal. apply IH. intros Hin. apply H. now right.
Qed.

(** The recipes named so far are never forgotten. *)
Lemma recipes_grow_step (st : locals) (line : string) (st' : locals) :
  loop_body st line = Ok st' -> incl (recipes st) (recipes st').
Proof.
  rewrite loop_body_effect.
  destruct (effect_of _ _ _ line) as [| |e|f [r|]|fl|nv app fl];
    simpl; intros H; try discriminate; injection H as <-; simpl;
    try apply incl_refl.
  apply incl_appl, incl_refl.
Qed.

Lemma recipes_grow (lines : list string) :
  forall st st',
    for_lines st lines = Ok st' -> incl (recipes st) (recipes st').
Proof.
  induction lines as [|line lines IH]; simpl; intros st st' H.
  - injection H as <-. apply incl_refl.
  - destruct (loop_body st line) as [st1|e] eqn:E; simpl in H; [|discriminate].
    apply incl_tran with (recipes st1).
    + now apply (recipes_grow_step st line).
    + now apply IH.
Qed.

(** One iteration on the same line, after a first diff whose collection
    [earlier] does not hold the current recipe: the line does to the joined
    collection what it does to the collection of the second diff alone. *)
Lemma independent_step (earlier : list string) (a b : locals) (line : string)
    (a' : locals) :
  same_context a b ->
  specs b = earlier ++ specs a ->
  (changed_recipe a <> "" -> ~ In (changed_recipe a) earlier) ->
  loop_body a line = Ok a' ->
  exists b', loop_body b line = Ok b'
             /\ same_context a' b' /\ specs b' = earlier ++ specs a'.
Proof.
  intros [Hcr [Hvs [Hvar Hfl]]] Hspecs Hfree.
  rewrite !loop_body_effect. rewrite <- Hcr, <- Hvs, <- Hfl.
  destruct (effect_of _ _ _ line) as [| |e|f [r|]|fl|nv app fl] eqn:E;
    simpl; intros H; try discriminate; injection H as <-;
    (eexists; split; [reflexivity|]);
    (split; [unfold same_context; simpl; repeat split; congruence|]);
    simpl; try exact Hspecs.
  - rewrite Hspecs. now rewrite <- app_assoc.
  - destruct (effect_specific _ _ _ _ _ _ _ E) as [Hne _].
    rewrite <- Hcr, Hspecs.
    rewrite remove_first_app_notin by now apply Hfree.
    now rewrite <- app_assoc.
Qed.

Lemma independent_for_lines (earlier : list string) (lines : list string) :
  forall a b a',
    same_context a b -> context_inv a ->
    specs b = earlier ++ specs a ->
    for_lines a lines = Ok a' ->
    (forall r, In r (recipes a') -> ~ In r earlier) ->
    exists b', for_lines b lines = Ok b'
               /\ same_context a' b' /\ specs b' = earlier ++ specs a'.
Proof.
  induction lines as [|line lines IH]; simpl; intros a b a' Hc Hi Hs H Hfree.
  - injection H as <-. now exists b.
  - destruct (loop_body a line) as [a1|e] eqn:Ea; simpl in H; [|discriminate].
    assert (Hgrow : incl (recipes a) (recipes a')).
    { apply incl_tran with (recipes a1).
      - now apply (recipes_grow_step a line).
      - now apply (recipes_grow lines). }
    assert (Hcur : changed_recipe a <> "" -> ~ In (changed_recipe a) earlier).
    { intros Hne. apply Hfree, Hgrow. destruct Hi as [_ Hin]. now apply Hin. }
    destruct (independent_step earlier a b line a1 Hc Hs Hcur Ea)
      as [b1 [Eb [Hc1 Hs1]]].
    rewrite Eb. simpl. apply (IH a1 b1 a'); try assumption.
    now apply (context_inv_step a line).
Qed.

(** The joined text of two diffs, the second starting with the boundary
    marker and naming no recipe that is an entry of the collection of the
    first. *)
Lemma independent_diffs_joined (d1 d2 : string) (st1 st2 : locals) :
  PyStr.startswith d2 "diff --git" = true ->
  scan_diff d1 = Ok st1 ->
  scan_diff d2 = Ok st2 ->
  (forall r, In r (recipes st2) -> ~ In r (specs st1)) ->
  specs_of_diff (d1 ^ PyStr.nl ^ d2) = Ok (specs st1 ++ specs st2)
  /\ exists st,
       scan_diff (d1 ^ PyStr.nl ^ d2) = Ok st
       /\ specs st = specs st1 ++ specs st2
       /\ changed_recipe st = changed_recipe st2
       /\ versions st = versions st2
       /\ variants st = variants st2
       /\ next_line_is_version st = next_line_is_version st2.
Proof.
  intros Hmark H1 H2 Hfree.
  assert (Hst : exists st,
             scan_diff (d1 ^ PyStr.nl ^ d2) = Ok st
             /\ same_context st2 st /\ specs st = specs st1 ++ specs st2).
  { unfold scan_diff in *.
    destruct (first_line_marker d2 Hmark) as [line [rest [Esplit Hline]]].
    change (d1 ^ PyStr.nl ^ d2) with (d1 ^ String PyStr.newline d2).
    rewrite Esplit in H2. simpl in H2.
    rewrite (loop_body_marker initial_locals line Hline) in H2. simpl in H2.
    rewrite split_join, for_lines_app, H1, Esplit. simpl.
    rewrite (loop_body_marker st1 line Hline). simpl.
    assert (Hc0 : same_context (reset_context initial_locals)
                                (reset_context st1)) by (repeat split).
    assert (Hs0 : specs (reset_context st1)
                  = specs st1 ++ specs (reset_context initial_locals))
      by (simpl; now rewrite app_nil_r).
    apply (independent_for_lines (specs st1) rest
             (reset_context initial_locals) (reset_context st1) st2 Hc0
             (context_inv_reset initial_locals) Hs0 H2 Hfree). }
  destruct Hst as [st [Hscan [[Hc1 [Hc2 [Hc3 Hc4]]] Hspecs]]].
  split.
  - unfold specs_of_diff. rewrite Hscan. simpl. now rewrite Hspecs.
  - exists st. repeat split; congruence.
Qed.

(** C9: two independent diffs, the second starting with the file-boundary
    marker, where independent means that no recipe the second names is an
    entry of the collection of the first (as when the two name different
    recipes).  Parsing the joined text succeeds and yields exactly the specs
    of the first followed by the specs of the second, each as parsed alone;
    and it ends in the Diff Parse Context the second ends in alone: current
    recipe, pending versions and variants and the awaiting flag do not leak
    across the marker. *)
Theorem independent_diffs_concatenate (d1 d2 : string) (st1 st2 : locals) :
  PyStr.startswith d2 "diff --git" = true ->
  scan_diff d1 = Ok st1 ->
  scan_diff d2 = Ok st2 ->
  (forall r, In r (recipes st2) -> ~ In r (specs st1)) ->
  specs_of_diff (d1 ^ PyStr.nl ^ d2) = Ok (specs st1 ++ specs st2)
  /\ exists st,
       scan_diff (d1 ^ PyStr.nl ^ d2) = Ok st
       /\ specs st = specs st1 ++ specs st2
       /\ changed_recipe st = changed_recipe st2
       /\ versions st = versions st2
       /\ variants st = variants st2
       /\ next_line_is_version st = next_line_is_version st2.
Proof. exact (independent_diffs_joined d1 d2 st1 st2). Qed.

Lemma scan_provenance (stdout : string) (st : locals) (s : string) :
  scan_diff stdout = Ok st ->
  In s (specs st) ->
  exists r, In r (recipes st) /\ built_from r s.
Proof.
  intros Hscan. revert s.
  apply (for_lines_invariant
           (fun st => context_inv st
                      /\ forall s, In s (specs st) ->
                           exists r, In r (recipes st) /\ built_from r s))
    with (lines := PyStr.split PyStr.newline stdout)
         (st := initial_locals); [| |exact Hscan].
  - intros a line a' [Hc Hp] Hstep. split.
    + now apply (context_inv_step a line).
    + now apply (provenance_step a line).
  - split; [apply context_inv_initial | intros s []].
Qed.

(** Diffs that name different recipes are independent in the sense above,
    when the recipe names of the second carry neither a plus nor an at
    sign. *)
Lemma different_recipes_independent (d1 : string) (st1 st2 : locals) :
  scan_diff d1 = Ok st1 ->
  Forall (fun r => plain r = true) (recipes st2) ->
  (forall r, In r (recipes st2) -> ~ In r (recipes st1)) ->
  forall r, In r (recipes st2) -> ~ In r (specs st1).
Proof.
  intros Hscan Hplain Hdiff r Hr Hin.
  destruct (scan_provenance d1 st1 r Hscan Hin) as [r1 [Hr1 Hb]].
  assert (Hp : plain r = true)
    by (now apply (proj1 (Forall_forall _ _) Hplain)).
  apply built_from_plain in Hb; [|assumption]. subst r1.
  now apply (Hdiff r Hr).
Qed.

(** X26: two diffs that name different recipes, those of the second
    carrying neither a plus nor an at sign, the second starting with the
    file-boundary marker: the joined text yields the specs of the first
    followed by the specs of the second. *)
Theorem different_recipes_concatenate (d1 d2 : string) (st1 st2 : locals) :
  PyStr.startswith d2 "diff --git" = true ->
  scan_diff d1 = Ok st1 ->
  scan_diff d2 = Ok st2 ->
  Forall (fun r => plain r = true) (recipes st2) ->
  (forall r, In r (recipes st2) -> ~ In r (recipes st1)) ->
  specs_of_diff (d1 ^ PyStr.nl ^ d2) = Ok (specs st1 ++ specs st2).
Proof.
  intros Hmark H1 H2 Hplain Hdiff.
  apply (independent_diffs_joined d1 d2 st1 st2 Hmark H1 H2).
  now apply (different_recipes_independent d1 st1 st2).
Qed.

(** ** The further theorems at concrete inputs *)

Lemma specs_come_from_named_recipes_witness :
  scan_diff Scenario.foo_2_1 = Ok Scenario.foo_2_1_locals
  /\ In "foo@2.1" (specs Scenario.foo_2_1_locals)
  /\ exists r, In r (recipes Scenario.foo_2_1_locals)
               /\ built_from r "foo@2.1".
Proof.
  assert (Hscan : scan_diff Scenario.foo_2_1 = Ok Scenario.foo_2_1_locals)
    by (vm_compute; reflexivity).
  assert (Hin : In "foo@2.1" (specs Scenario.foo_2_1_locals))
    by (simpl; tauto).
  repeat split; try assumption.
  exact (specs_come_from_named_recipes Scenario.foo_2_1
           Scenario.foo_2_1_locals "foo@2.1" Hscan Hin).
Defined.

Lemma named_recipes_stay_represented_witness :
  scan_diff Scenario.foo_two_versions = Ok Scenario.foo_two_versions_locals
  /\ In "foo" (recipes Scenario.foo_two_versions_locals)
  /\ exists s, In s (specs Scenario.foo_two_versions_locals)
               /\ built_from "foo" s.
Proof.
  assert (Hscan : scan_diff Scenario.foo_two_versions
                  = Ok Scenario.foo_two_versions_locals)
    by (vm_compute; reflexivity).
  assert (Hin : In "foo" (recipes Scenario.foo_two_versions_locals))
    by (simpl; tauto).
  repeat split; try assumption.
  apply (named_recipes_stay_represented Scenario.foo_two_versions
           Scenario.foo_two_versions_locals "foo" Hscan);
    [repeat constructor | exact Hin].
Defined.

Lemma safe_versions_are_tokens_witness :
  "2.4.1" <> ""
  /\ forall c, mem_char c "2.4.1" = true -> PyStr.isspace c = false.
Proof.
  apply (safe_versions_are_tokens
           (Scenario.spack_answers 0 Scenario.safe_output) "wget" []
           ["2.4.1"; "2.3"; "2.2"; "2.1"] "2.4.1").
  - vm_compute. reflexivity.
  - simpl. tauto.
Defined.

Lemma only_first_label_dropped_witness :
  exists safe,
    fst (get_safe_versions
           (Scenario.spack_answers 0 "develop  3.0  develop  main") "wget" [])
    = Ok safe
    /\ count_occ string_dec safe "develop"
       = if PyStr.contains "develop" skip_versions
         then pred (count_occ string_dec
                      (listed_versions
                         (PyStr.strip "develop  3.0  develop  main"))
                      "develop")
         else count_occ string_dec
                (listed_versions (PyStr.strip "develop  3.0  develop  main"))
                "develop".
Proof.
  apply (only_first_label_dropped
           (Scenario.spack_answers 0 "develop  3.0  develop  main")
           "wget" "develop  3.0  develop  main" "" [] "develop").
  reflexivity.
Defined.

Lemma expansion_size_bounds_witness :
  exists result,
    fst (expand_specs_to_check_package_versions
           (Scenario.spack_fails_for "bar") ["foo@2.1"; "bar"; "zlib+pic"]
           2 []) = Ok result
    /\ length ["foo@2.1"; "bar"; "zlib+pic"] <= length result
       <= Z.to_nat 2 * length ["foo@2.1"; "bar"; "zlib+pic"].
Proof.
  apply (expansion_size_bounds (Scenario.spack_fails_for "bar")
           ["foo@2.1"; "bar"; "zlib+pic"] 2 []).
  lia.
Defined.

Lemma uninstall_stops_at_first_failure_witness :
  spack_uninstall_packages (World.commands 0 "" 5)
    ([] ++ "bar@1.0" :: ["foo@2.1"]) []
  = (Raise (SystemExit 5),
     [["bin/spack"; "uninstall"; "-ya"; "--dependents"; "bar@1.0"]]).
Proof.
  apply (uninstall_stops_at_first_failure (World.commands 0 "" 5)
           [] ["foo@2.1"] "bar@1.0" []).
  - constructor.
  - vm_compute. discriminate.
Defined.

Lemma downloads_stop_at_first_failure_witness :
  check_all_downloads (World.children "bar@1.0")
    (["foo@2.1"] ++ "bar@1.0" :: ["zlib"]) []
  = (Ok 3%Z,
     [["bin/spack"; "fetch"; "--fresh"; "--fresh-roots"; "--deprecated";
       "foo@2.1"];
      ["bin/spack"; "fetch"; "--fresh"; "--fresh-roots"; "--deprecated";
       "bar@1.0"]]).
Proof.
  apply (downloads_stop_at_first_failure (World.children "bar@1.0")
           ["foo@2.1"] ["zlib"] "bar@1.0" 3 []).
  - repeat constructor.
  - reflexivity.
  - discriminate.
Defined.

Lemma main_stops_when_diff_fails_witness :
  main (World.commands 0 "warning: outdated gh" 0) (World.children "none")
    "n" World.os_release World.install_flags []
  = (Raise (SystemExit 0), [["gh"; "pr"; "diff"]]).
Proof.
  apply (main_stops_when_diff_fails
           (World.commands 0 "warning: outdated gh" 0)
           (World.children "none") "n" World.os_release World.install_flags
           0 World.diff "warning: outdated gh" []).
  - reflexivity.
  - right. vm_compute. discriminate.
Defined.

Lemma main_download_only_witness :
  main (World.commands 0 "" 0) (World.children "foo@2.4.1") "n"
    World.os_release World.download_flags []
  = check_all_downloads (World.children "foo@2.4.1")
      (checked_specs (World.commands 0 "" 0) World.download_flags
         ["foo@2.1"; "bar@1.0"])
      ([] ++ [["gh"; "pr"; "diff"]]
       ++ expansion_queries World.download_flags ["foo@2.1"; "bar@1.0"]).
Proof.
  apply (main_download_only (World.commands 0 "" 0)
           (World.children "foo@2.4.1") "n" World.os_release
           World.download_flags World.diff "" ["foo@2.1"; "bar@1.0"] []).
  - reflexivity.
  - reflexivity.
  - vm_compute. reflexivity.
  - reflexivity.
Defined.

Lemma main_installs_what_is_missing_witness :
  main (World.commands 0 "" 0) (World.children "none") "n"
    World.os_release World.install_flags []
  = (Ok 0%Z,
     [["gh"; "pr"; "diff"];
      ["bin/spack"; "find"; "--no-groups"; "-v"; "-I"; "foo@2.1"];
      ["bin/spack"; "find"; "--no-groups"; "-v"; "-I"; "bar@1.0"];
      ["bin/spack"; "install"; "-v"; "--fail-fast"; "--deprecated";
       "foo@2.1"];
      ["bin/spack"; "find"; "-v"; "bar@1.0"; "foo@2.1"];
      ["gh"; "pr"; "edit"; "--add-label"; "Built on Ubuntu 22.04"]]).
Proof.
  apply (main_installs_what_is_missing (World.commands 0 "" 0)
           (World.children "none") "n" World.os_release World.install_flags
           World.diff "" ["foo@2.1"; "bar@1.0"]
           " on Ubuntu 22.04.4 LTS" "Ubuntu" "22.04" []).
  - reflexivity.
  - reflexivity.
  - vm_compute. reflexivity.
  - vm_compute. reflexivity.
  - reflexivity.
  - vm_compute. reflexivity.
Defined.

Lemma main_returns_zero_iff_witness :
  exists code,
    fst (main (World.commands 0 "" 0) (World.children "foo@2.1") "n"
           World.os_release World.install_flags []) = Ok code
    /\ (code = 0%Z \/ code = 1%Z)
    /\ (code = 0%Z
        <-> Forall (fun s => install_passes (World.children "foo@2.1") s = true)
              (to_install
                 (filter (fun s => negb (is_installed (World.commands 0 "" 0) s))
                    (checked_specs (World.commands 0 "" 0)
                       World.install_flags ["foo@2.1"; "bar@1.0"])))
            /\ (to_install
                  (filter (fun s => negb (is_installed (World.commands 0 "" 0) s))
                     (checked_specs (World.commands 0 "" 0)
                        World.install_flags ["foo@2.1"; "bar@1.0"])) <> []
                \/ filter (is_installed (World.commands 0 "" 0))
                     (checked_specs (World.commands 0 "" 0)
                        World.install_flags ["foo@2.1"; "bar@1.0"]) <> [])).
Proof.
  apply (main_returns_zero_iff (World.commands 0 "" 0)
           (World.children "foo@2.1") "n" World.os_release
           World.install_flags World.diff "" ["foo@2.1"; "bar@1.0"] []).
  - reflexivity.
  - reflexivity.
  - vm_compute. reflexivity.
  - reflexivity.
  - vm_compute. reflexivity.
Defined.

Lemma main_reinstalls_after_uninstall_witness :
  main (World.commands 0 "" 0) (World.children "none") "Y"
    World.os_release World.uninstall_flags []
  = (Ok 0%Z,
     [["gh"; "pr"; "diff"];
      ["bin/spack"; "find"; "--no-groups"; "-v"; "-I"; "foo@2.1"];
      ["bin/spack"; "find"; "--no-groups"; "-v"; "-I"; "bar@1.0"];
      ["bin/spack"; "uninstall"; "-ya"; "--dependents"; "bar@1.0"];
      ["bin/spack"; "install"; "-v"; "--fail-fast"; "--deprecated";
       "foo@2.1"];
      ["bin/spack"; "install"; "-v"; "--fail-fast"; "--deprecated";
       "bar@1.0"];
      ["bin/spack"; "find"; "-v"; "foo@2.1"; "bar@1.0"]]).
Proof.
  apply (main_reinstalls_after_uninstall (World.commands 0 "" 0)
           (World.children "none") "Y" World.os_release World.uninstall_flags
           World.diff "" ["foo@2.1"; "bar@1.0"]
           " on Ubuntu 22.04.4 LTS" "Ubuntu" "22.04" []).
  - reflexivity.
  - reflexivity.
  - vm_compute. reflexivity.
  - vm_compute. reflexivity.
  - reflexivity.
  - vm_compute. reflexivity.
  - vm_compute. repeat constructor.
Defined.

Lemma main_stops_when_uninstall_fails_witness :
  main (World.commands 0 "" 5) (World.children "none") "y"
    World.os_release World.uninstall_flags []
  = (Raise (SystemExit 5),
     [["gh"; "pr"; "diff"];
      ["bin/spack"; "find"; "--no-groups"; "-v"; "-I"; "foo@2.1"];
      ["bin/spack"; "find"; "--no-groups"; "-v"; "-I"; "bar@1.0"];
      ["bin/spack"; "uninstall"; "-ya"; "--dependents"; "bar@1.0"]]).
Proof.
  apply (main_stops_when_uninstall_fails (World.commands 0 "" 5)
           (World.children "none") "y" World.os_release World.uninstall_flags
           World.diff "" ["foo@2.1"; "bar@1.0"] [] [] "bar@1.0" []).
  - reflexivity.
  - reflexivity.
  - vm_compute. reflexivity.
  - reflexivity.
  - vm_compute. reflexivity.
  - vm_compute. reflexivity.
  - constructor.
  - vm_compute. discriminate.
Defined.

Lemma path_marker_sets_recipe_witness :
  loop_body initial_locals (recipe_path_line "foo")
  = Ok (mkLocals ["var/spack/repos/builtin/packages/foo/package.py"] "foo"
          ["var/spack/repos/builtin/packages/foo/package.py"] ["foo"] ["foo"]
          [] [] false).
Proof.
  apply (path_marker_sets_recipe initial_locals "foo"). reflexivity.
Defined.

Lemma version_line_appends_spec_witness :
  loop_body Scenario.foo_bare_locals
    (version_decl_line ("    ", "1.0", "sha256=" ^ PyStr.q ^ "aa" ^ PyStr.q ^ ")"))
  = Ok (set_specs Scenario.foo_bare_locals [] ["foo@1.0"] false).
Proof.
  apply (version_line_appends_spec Scenario.foo_bare_locals
           ("    ", "1.0", "sha256=" ^ PyStr.q ^ "aa" ^ PyStr.q ^ ")")).
  - vm_compute. reflexivity.
  - vm_compute. discriminate.
Defined.

Lemma one_file_block_yields_versions_witness :
  specs_of_diff Scenario.foo_two_versions = Ok ["foo@1.0"; "foo@2.0"].
Proof.
  apply (one_file_block_yields_versions Scenario.foo_two_versions
           ("diff --git a/var/spack/repos/builtin/packages/foo/package.py"
            ^ " b/var/spack/repos/builtin/packages/foo/package.py")
           "foo" World.two_version_decls).
  - vm_compute. reflexivity.
  - discriminate.
  - reflexivity.
  - repeat constructor.
  - vm_compute. reflexivity.
Defined.

Lemma independent_diffs_concatenate_witness :
  PyStr.startswith World.bar_block "diff --git" = true
  /\ (forall r, In r (recipes World.bar_block_locals) ->
                ~ In r (specs Scenario.foo_bare_locals))
  /\ specs_of_diff (Scenario.foo_bare ^ PyStr.nl ^ World.bar_block)
     = Ok (specs Scenario.foo_bare_locals ++ specs World.bar_block_locals)
  /\ exists st,
       scan_diff (Scenario.foo_bare ^ PyStr.nl ^ World.bar_block) = Ok st
       /\ specs st
          = specs Scenario.foo_bare_locals ++ specs World.bar_block_locals
       /\ changed_recipe st = changed_recipe World.bar_block_locals
       /\ versions st = versions World.bar_block_locals
       /\ variants st = variants World.bar_block_locals
       /\ next_line_is_version st
          = next_line_is_version World.bar_block_locals.
Proof.
  assert (Hmark : PyStr.startswith World.bar_block "diff --git" = true)
    by (vm_compute; reflexivity).
  assert (Hfree : forall r, In r (recipes World.bar_block_locals) ->
                            ~ In r (specs Scenario.foo_bare_locals)).
  { simpl. intros r [<-|[]] [H|[]]. discriminate. }
  split; [exact Hmark|]. split; [exact Hfree|].
  apply (independent_diffs_concatenate Scenario.foo_bare World.bar_block
           Scenario.foo_bare_locals World.bar_block_locals Hmark).
  - vm_compute. reflexivity.
  - vm_compute. reflexivity.
  - exact Hfree.
Defined.

Lemma different_recipes_concatenate_witness :
  PyStr.startswith World.bar_block "diff --git" = true
  /\ Forall (fun r => plain r = true) (recipes World.bar_block_locals)
  /\ (forall r, In r (recipes World.bar_block_locals) ->
                ~ In r (recipes Scenario.foo_2_1_locals))
  /\ specs_of_diff (Scenario.foo_2_1 ^ PyStr.nl ^ World.bar_block)
     = Ok (specs Scenario.foo_2_1_locals ++ specs World.bar_block_locals).
Proof.
  assert (Hmark : PyStr.startswith World.bar_block "diff --git" = true)
    by (vm_compute; reflexivity).
  assert (Hplain : Forall (fun r => plain r = true)
                     (recipes World.bar_block_locals)).
  { repeat constructor. }
  assert (Hdiff : forall r, In r (recipes World.bar_block_locals) ->
                            ~ In r (recipes Scenario.foo_2_1_locals)).
  { simpl. intros r [<-|[]] [H|[]]. discriminate. }
  split; [exact Hmark|]. split; [exact Hplain|]. split; [exact Hdiff|].
  apply (different_recipes_concatenate Scenario.foo_2_1 World.bar_block
           Scenario.foo_2_1_locals World.bar_block_locals Hmark).
  - vm_compute. reflexivity.
  - vm_compute. reflexivity.
  - exact Hplain.
  - exact Hdiff.
Defined.
